(** * Shallow embedding of [savitri_app/analyze_coverage.py]

    The script reads an LCOV text file, accumulates per-file line counts in
    an insertion-ordered dictionary, and prints a coverage report.  The
    embedding follows the script statement by statement.

    Conventions.
    - A Python [str] is a Rocq [string]; the character of code [n] stands for
      the code point [n] (so only texts with code points below 256 are
      covered).
    - A Python [int] is a [Z]; a Python [float] is a binary64 value of
      [SpecFloat] (precision 53, maximal exponent 1024).
    - [int()] and the formatting of an int follow the language definition,
      in which an int has no bound.  Recent CPython releases add a limit on
      the number of digits such a conversion accepts (4300 unless set
      otherwise, [0] meaning none); the embedding is that of an interpreter
      run without the limit, and of every run in which no numeric field and
      no count has more than 4300 digits.  The statements on which
      exceptions can end a run, and on the exact text of the report, are
      made for such runs: they carry [short_fields] and
      [within_digit_limit] as hypotheses.
    - [open] fails in the two ways the specification names, a missing file
      and a file that may not be read; a path that is a directory, or bytes
      that do not decode, are not modelled, and the statements on the
      exceptions of a run start from a file whose text has been read.
    - An exception is a value of [exception]; nothing in the script catches
      one, so every raised exception ends the run.
    - [print] appends a line to the standard output, which is taken to
      accept every text.
    - The locals [lines_found] and [lines_hit] that the function sets to 0
      before the loop are never read, and have no counterpart here. *)

From Stdlib Require Import ZArith NArith List Bool Ascii String DecimalString Lia.
From Stdlib Require Import Sorting.Sorted Sorting.Permutation.
From Stdlib Require Import Floats.SpecFloat.
Import ListNotations.

Local Open Scope string_scope.
Local Open Scope Z_scope.

(** ** Python built-ins used by the script *)

Module Py.

(** *** Exceptions and fallible computations *)

Inductive exception : Type :=
| FileNotFoundError (filename : string)
| PermissionError (filename : string)
| ValueError (literal : string)
| KeyError (key : option string)
| ZeroDivisionError
| OverflowError.

Inductive result (A : Type) : Type :=
| Ok (a : A)
| Raise (e : exception).
Arguments Ok {A} a.
Arguments Raise {A} e.

Definition bind {A B : Type} (r : result A) (k : A -> result B) : result B :=
  match r with
  | Ok a => k a
  | Raise e => Raise e
  end.

(** *** str *)

Definition code (c : ascii) : N := N_of_ascii c.

(** [str.isspace] on one character, for code points below 256. *)
Definition isspace (c : ascii) : bool :=
  let n := code c in
  (((9 <=? n) && (n <=? 13)) || ((28 <=? n) && (n <=? 32))
   || (n =? 133) || (n =? 160))%N.

Fixpoint lstrip (s : string) : string :=
  match s with
  | EmptyString => EmptyString
  | String c s' => if isspace c then lstrip s' else s
  end.

Fixpoint rstrip (s : string) : string :=
  match s with
  | EmptyString => EmptyString
  | String c s' =>
      match rstrip s' with
      | EmptyString => if isspace c then EmptyString else String c EmptyString
      | t => String c t
      end
  end.

(** [s.strip()] *)
Definition strip (s : string) : string := rstrip (lstrip s).

(** [s.startswith(p)] *)
Definition startswith (s p : string) : bool := String.prefix p s.

(** [s[n:]] for [n >= 0] *)
Fixpoint slice_from (n : nat) (s : string) : string :=
  match n, s with
  | O, _ => s
  | S _, EmptyString => EmptyString
  | S n', String _ s' => slice_from n' s'
  end.

(** [s.split(sep)] for a one-character separator: never the empty list. *)
Fixpoint split (sep : ascii) (s : string) : list string :=
  match s with
  | EmptyString => [EmptyString]
  | String c s' =>
      if Ascii.eqb c sep then EmptyString :: split sep s'
      else match split sep s' with
           | [] => [String c EmptyString]
           | p :: ps => String c p :: ps
           end
  end.

(** *** int(str) in base 10 *)

(** The white space [int()] skips around the literal: the ASCII blanks, and
    the two blanks above 127, which the conversion first turns into [" "].
    The separators 28..31 are white space for [strip] but not here. *)
Definition int_isspace (c : ascii) : bool :=
  let n := code c in
  (((9 <=? n) && (n <=? 13)) || (n =? 32) || (n =? 133) || (n =? 160))%N.

Fixpoint int_lstrip (s : string) : string :=
  match s with
  | EmptyString => EmptyString
  | String c s' => if int_isspace c then int_lstrip s' else s
  end.

Fixpoint int_rstrip (s : string) : string :=
  match s with
  | EmptyString => EmptyString
  | String c s' =>
      match int_rstrip s' with
      | EmptyString => if int_isspace c then EmptyString else String c EmptyString
      | t => String c t
      end
  end.

Definition digit_value (c : ascii) : option Z :=
  let n := code c in
  if ((48 <=? n) && (n <=? 57))%N then Some (Z.of_N n - 48) else None.

(** Decimal digits, single underscores allowed between two digits.
    [after_digit] tells whether the previous character was a digit. *)
Fixpoint parse_digits (acc : Z) (after_digit : bool) (s : string) : option Z :=
  match s with
  | EmptyString => if after_digit then Some acc else None
  | String c s' =>
      match digit_value c with
      | Some d => parse_digits (10 * acc + d) true s'
      | None =>
          if Ascii.eqb c "_" && after_digit then parse_digits acc false s'
          else None
      end
  end.

Definition parse_int (s : string) : option Z :=
  match int_rstrip (int_lstrip s) with
  | String "+" t => parse_digits 0 false t
  | String "-" t => option_map Z.opp (parse_digits 0 false t)
  | t => parse_digits 0 false t
  end.

(** [int(s)]: the value, or [ValueError: invalid literal for int() with base
    10: s]. *)
Definition int (s : string) : result Z :=
  match parse_int s with
  | Some z => Ok z
  | None => Raise (ValueError s)
  end.

(** [str(n)] for an [int]. *)
Definition str (n : Z) : string := NilZero.string_of_int (Z.to_int n).

(** [c * n] for a one-character string [c]. *)
Fixpoint repeat_char (c : ascii) (n : nat) : string :=
  match n with
  | O => EmptyString
  | S n' => String c (repeat_char c n')
  end.

(** *** float: IEEE 754 binary64, round to nearest, ties to even *)

Definition prec : Z := 53.
Definition emax : Z := 1024.
Definition float : Type := spec_float.

(** The integer [n] as an exact (unrounded) significand with exponent 0. *)
Definition exact (n : Z) : float :=
  match n with
  | Z0 => S754_zero false
  | Zpos p => S754_finite false p 0
  | Zneg p => S754_finite true p 0
  end.

(** [a / b] on two ints: the correctly rounded quotient; a zero divisor
    raises [ZeroDivisionError], a quotient beyond the largest float raises
    [OverflowError]. *)
Definition truediv (a b : Z) : result float :=
  if b =? 0 then Raise ZeroDivisionError
  else match SFdiv prec emax (exact a) (exact b) with
       | S754_infinity _ => Raise OverflowError
       | q => Ok q
       end.

(** [float(n)] for an int in the range of floats (used at [n = 100]). *)
Definition float_of_int (n : Z) : float := binary_normalize prec emax n 0 false.

(** [x * y] on floats. *)
Definition fmul (x y : float) : float := SFmul prec emax x y.

(** Nearest integer to [num / den] for [0 <= num] and [0 < den]; a tie goes
    to the even neighbour. *)
Definition round_half_even (num den : Z) : Z :=
  let q := num / den in
  let r := num mod den in
  match 2 * r ?= den with
  | Lt => q
  | Gt => q + 1
  | Eq => if Z.even q then q else q + 1
  end.

(** Ten times the magnitude [m * 2^e], rounded to an integer. *)
Definition tenths (m : positive) (e : Z) : Z :=
  if 0 <=? e then Zpos m * 2 ^ e * 10
  else round_half_even (Zpos m * 10) (2 ^ (- e)).

Definition sign_str (s : bool) : string := if s then "-" else "".

(** [format(x, ".1f")]: the exact binary value rounded to one decimal. *)
Definition format_1f (x : float) : string :=
  match x with
  | S754_nan => "nan"
  | S754_infinity s => sign_str s ++ "inf"
  | S754_zero s => sign_str s ++ "0.0"
  | S754_finite s m e =>
      let t := tenths m e in
      sign_str s ++ str (t / 10) ++ "." ++ str (t mod 10)
  end.

(** *** dict with [str] keys: insertion ordered, one entry per key *)

Definition dict (V : Type) : Type := list (string * V).

Fixpoint dict_lookup {V : Type} (d : dict V) (k : string) : option V :=
  match d with
  | [] => None
  | (k', v) :: d' => if String.eqb k' k then Some v else dict_lookup d' k
  end.

(** [d[k]] where [k] may be [None], which is never a key here. *)
Definition getitem {V : Type} (d : dict V) (k : option string) : result V :=
  match k with
  | None => Raise (KeyError None)
  | Some s =>
      match dict_lookup d s with
      | Some v => Ok v
      | None => Raise (KeyError (Some s))
      end
  end.

(** [d[k] = v]: an existing key keeps its position, a new one goes last. *)
Fixpoint setitem {V : Type} (d : dict V) (k : string) (v : V) : dict V :=
  match d with
  | [] => [(k, v)]
  | (k', v') :: d' =>
      if String.eqb k' k then (k', v) :: d' else (k', v') :: setitem d' k v
  end.

Definition keys {V : Type} (d : dict V) : list string := map fst d.
Definition values {V : Type} (d : dict V) : list V := map snd d.

(** [sum(l)] on ints. *)
Definition sum (l : list Z) : Z := fold_left Z.add l 0.

(** [sorted(l)] on strings: ascending in code point order. *)
Fixpoint insert_sorted (x : string) (l : list string) : list string :=
  match l with
  | [] => [x]
  | y :: l' => if String.leb x y then x :: l else y :: insert_sorted x l'
  end.

Definition sorted (l : list string) : list string :=
  fold_right insert_sorted [] l.

(** *** Files *)

Inductive file_status : Type :=
| Absent
| Unreadable
| Text (content : string).

Definition filesystem : Type := string -> file_status.

(** [open(filename, 'r')] followed by reading the whole text. *)
Definition open (fs : filesystem) (filename : string) : result string :=
  match fs filename with
  | Absent => Raise (FileNotFoundError filename)
  | Unreadable => Raise (PermissionError filename)
  | Text content => Ok content
  end.

Definition NL : ascii := ascii_of_N 10.
Definition CR : ascii := ascii_of_N 13.

(** Iterating a text file: each line ends at a newline, a carriage return,
    or the pair of them, all three read as one newline; a last line without
    terminator is kept.  [cur] is the line read so far. *)
Fixpoint readlines_from (cur : string) (text : string) : list string :=
  match text with
  | EmptyString =>
      match cur with
      | EmptyString => []
      | _ => [cur]
      end
  | String c rest =>
      if Ascii.eqb c NL then (cur ++ String NL "") :: readlines_from "" rest
      else if Ascii.eqb c CR then
        match rest with
        | String c' rest' =>
            if Ascii.eqb c' NL then (cur ++ String NL "") :: readlines_from "" rest'
            else (cur ++ String NL "") :: readlines_from "" rest
        | EmptyString => (cur ++ String NL "") :: readlines_from "" rest
        end
      else readlines_from (cur ++ String c "") rest
  end.

Definition readlines (text : string) : list string := readlines_from "" text.

(** *** Programs that print: the lines written so far and the outcome *)

Definition io (A : Type) : Type := (list string * result A)%type.

Definition io_ret {A : Type} (a : A) : io A := ([], Ok a).

Definition io_bind {A B : Type} (m : io A) (k : A -> io B) : io B :=
  match m with
  | (out, Ok a) => let (out', r) := k a in ((out ++ out')%list, r)
  | (out, Raise e) => (out, Raise e)
  end.

Definition print (s : string) : io unit := ([s], Ok tt).

Definition lift {A : Type} (r : result A) : io A := ([], r).

Fixpoint for_each {A : Type} (l : list A) (body : A -> io unit) : io unit :=
  match l with
  | [] => io_ret tt
  | x :: l' => io_bind (body x) (fun _ => for_each l' body)
  end.

End Py.

(** ** The script *)

Import Py.

Notation "x <- e ;; k" := (bind e (fun x => k))
  (at level 61, e at next level, right associativity).
Notation "x <~ e ;; k" := (io_bind e (fun x => k))
  (at level 61, e at next level, right associativity).
Notation "e ;;; k" := (io_bind e (fun _ => k))
  (at level 61, right associativity).

(** The inner dictionary [{'lines_found': _, 'lines_hit': _}] of one file. *)
Record file_data : Type := mk_file_data { lines_found : Z; lines_hit : Z }.

(** The two locals the parsing loop threads through its iterations. *)
Record parser_state : Type := mk_state {
  files_coverage : dict file_data;
  current_file : option string
}.

Definition initial_state : parser_state :=
  {| files_coverage := []; current_file := None |}.

(** [d[k][field] = ...] and [d[k][field] += 1]: [d[k]] is looked up, which
    raises [KeyError] when [k] is [None] or not a key, and the dictionary
    found there is changed in place. *)
Definition update (d : dict file_data) (k : option string)
    (f : file_data -> file_data) : result (dict file_data) :=
  v <- getitem d k ;;
  match k with
  | Some s => Ok (setitem d s (f v))
  | None => Raise (KeyError None)
  end.

Definition set_lines_found (n : Z) (d : file_data) : file_data :=
  {| lines_found := n; lines_hit := lines_hit d |}.
Definition set_lines_hit (n : Z) (d : file_data) : file_data :=
  {| lines_found := lines_found d; lines_hit := n |}.
Definition incr_lines_found (d : file_data) : file_data :=
  set_lines_found (lines_found d + 1) d.
Definition incr_lines_hit (d : file_data) : file_data :=
  set_lines_hit (lines_hit d + 1) d.

(** One iteration of [for line in f] (source lines 14 to 36). *)
Definition process_line (st : parser_state) (raw : string) : result parser_state :=
  let line := strip raw in
  let fc := files_coverage st in
  let cf := current_file st in
  if startswith line "SF:" then
    let cf' := slice_from 3 line in
    Ok {| files_coverage := setitem fc cf' {| lines_found := 0; lines_hit := 0 |};
          current_file := Some cf' |}
  else if startswith line "DA:" then
    let parts := split "," (slice_from 3 line) in
    if (2 <=? List.length parts)%nat then
      hit_count <- int (nth 1 parts "") ;;
      fc1 <- update fc cf incr_lines_found ;;
      if hit_count >? 0 then
        fc2 <- update fc1 cf incr_lines_hit ;;
        Ok {| files_coverage := fc2; current_file := cf |}
      else Ok {| files_coverage := fc1; current_file := cf |}
    else Ok st
  else if startswith line "LF:" then
    n <- int (slice_from 3 line) ;;
    fc1 <- update fc cf (set_lines_found n) ;;
    Ok {| files_coverage := fc1; current_file := cf |}
  else if startswith line "LH:" then
    n <- int (slice_from 3 line) ;;
    fc1 <- update fc cf (set_lines_hit n) ;;
    Ok {| files_coverage := fc1; current_file := cf |}
  else Ok st.

(** The loop over the lines of the file. *)
Fixpoint parse_lines (st : parser_state) (lines : list string) : result parser_state :=
  match lines with
  | [] => Ok st
  | l :: ls => st' <- process_line st l ;; parse_lines st' ls
  end.

Definition total_lines_found (fc : dict file_data) : Z :=
  sum (map lines_found (values fc)).
Definition total_lines_hit (fc : dict file_data) : Z :=
  sum (map lines_hit (values fc)).

(** [(hit / found) * 100] *)
Definition percentage (hit found : Z) : result float :=
  q <- truediv hit found ;; Ok (fmul q (float_of_int 100)).

(** The f-string of source line 52. *)
Definition lines_line (data : file_data) (coverage : float) : string :=
  "  Lines: " ++ str (lines_hit data) ++ "/" ++ str (lines_found data)
  ++ " (" ++ format_1f coverage ++ "%)".

(** The f-string of source line 58. *)
Definition total_line (hit found : Z) (total_coverage : float) : string :=
  "Total Coverage: " ++ str hit ++ "/" ++ str found
  ++ " lines (" ++ format_1f total_coverage ++ "%)".

(** The body of the loop over the sorted paths (source lines 48 to 52). *)
Definition report_file (fc : dict file_data) (file_path : string) : io unit :=
  data <~ lift (getitem fc (Some file_path)) ;;
  if lines_found data >? 0 then
    coverage <~ lift (percentage (lines_hit data) (lines_found data)) ;;
    print file_path ;;;
    print (lines_line data coverage)
  else io_ret tt.

Definition separator : string := repeat_char "=" 80.

(** Totals and printing (source lines 39 to 60). *)
Definition report (fc : dict file_data) : io unit :=
  let found := total_lines_found fc in
  let hit := total_lines_hit fc in
  print "Test Coverage Report" ;;;
  print separator ;;;
  for_each (sorted (keys fc)) (report_file fc) ;;;
  print separator ;;;
  if found >? 0 then
    total_coverage <~ lift (percentage hit found) ;;
    print (total_line hit found total_coverage)
  else print "No coverage data found".

Definition analyze_lcov_file (fs : filesystem) (filename : string) : io unit :=
  text <~ lift (open fs filename) ;;
  st <~ lift (parse_lines initial_state (readlines text)) ;;
  report (files_coverage st).

(** The [__main__] block. *)
Definition main (fs : filesystem) : io unit :=
  analyze_lcov_file fs "coverage/lcov.info".

(** What a run leaves behind: the lines on standard output, and how the
    interpreter ended.  An exception that reaches the top level is reported
    by the interpreter with a traceback and exit status 1. *)
Definition stdout {A : Type} (r : io A) : list string := fst r.

Definition uncaught {A : Type} (r : io A) : option exception :=
  match snd r with
  | Ok _ => None
  | Raise e => Some e
  end.

Definition exit_status {A : Type} (r : io A) : Z :=
  match uncaught r with
  | None => 0
  | Some _ => 1
  end.

(** A file system holding one text at the path the script reads. *)
Definition only_file (text : string) : filesystem :=
  fun name => if String.eqb name "coverage/lcov.info" then Text text else Absent.

Definition no_file : filesystem := fun _ => Absent.

(** A line as the file iteration yields it, with its newline. *)
Definition ended (l : string) : string := l ++ String NL "".

(** The text made of the given lines, each ended by a newline. *)
Definition unlines (ls : list string) : string :=
  String.concat "" (map ended ls).

(** ** Vocabulary for the statements

    These definitions only name what [process_line] and [report] already
    compute, so that the theorems can speak of "an [LF:] record" or "the
    numeric field of a record". *)

(** Which branch of the [if]/[elif] chain a raw line takes. *)
Inductive record_kind : Type := RecSF | RecDA | RecLF | RecLH | RecOther.

Definition classify (raw : string) : record_kind :=
  let line := strip raw in
  if startswith line "SF:" then RecSF
  else if startswith line "DA:" then RecDA
  else if startswith line "LF:" then RecLF
  else if startswith line "LH:" then RecLH
  else RecOther.

(** [line[3:]] of the stripped line. *)
Definition payload (raw : string) : string := slice_from 3 (strip raw).

(** [parts] of a [DA:] line. *)
Definition da_parts (raw : string) : list string := split "," (payload raw).

(** The text the script hands to [int()], if the line reaches that call. *)
Definition numeric_field (raw : string) : option string :=
  match classify raw with
  | RecDA =>
      if (2 <=? List.length (da_parts raw))%nat then Some (nth 1 (da_parts raw) "")
      else None
  | RecLF | RecLH => Some (payload raw)
  | RecSF | RecOther => None
  end.

(** A [DA:] line with at least two fields: it counts as a line found. *)
Definition counted_DA (raw : string) : bool :=
  match classify raw with
  | RecDA => (2 <=? List.length (da_parts raw))%nat
  | _ => false
  end.

(** A counted [DA:] line whose hit count converts to a positive int. *)
Definition hit_DA (raw : string) : bool :=
  counted_DA raw &&
  match int (nth 1 (da_parts raw) "") with
  | Ok k => k >? 0
  | Raise _ => false
  end.

Definition count_lines (f : string -> bool) (ls : list string) : Z :=
  Z.of_nat (List.length (filter f ls)).

(** The change one line that is not an [SF:] line makes to the open file's
    counts, when the line raises nothing. *)
Definition entry_after (raw : string) (d : file_data) : file_data :=
  match classify raw with
  | RecDA =>
      if counted_DA raw then
        if hit_DA raw then incr_lines_hit (incr_lines_found d)
        else incr_lines_found d
      else d
  | RecLF =>
      match int (payload raw) with
      | Ok n => set_lines_found n d
      | Raise _ => d
      end
  | RecLH =>
      match int (payload raw) with
      | Ok n => set_lines_hit n d
      | Raise _ => d
      end
  | RecSF | RecOther => d
  end.

(** The open file's counts after a run of lines with no [SF:] line. *)
Definition block_after (block : list string) (d : file_data) : file_data :=
  fold_left (fun d l => entry_after l d) block d.

Definition is_finite (x : float) : bool :=
  match x with
  | S754_zero _ | S754_finite _ _ _ => true
  | S754_infinity _ | S754_nan => false
  end.


(** The two lines printed for one listed file. *)
Definition block_lines (b : string * string) : list string := [fst b; snd b].

Definition le_str (p q : string) : Prop := String.leb p q = true.

(** What the specification asks of a fatal condition: a failure status,
    nothing printed, and no exception left uncaught. *)
Definition graceful_abort {A : Type} (r : io A) : Prop :=
  exit_status r <> 0 /\ stdout r = [] /\ uncaught r = None.

Definition title : string := "Test Coverage Report".

(** The states the loop can be in: no file opened yet, or a current file
    that has its entry. *)
Definition consistent (st : parser_state) : Prop :=
  match current_file st with
  | None => True
  | Some p => dict_lookup (files_coverage st) p <> None
  end.

(** Whether the loop, started with or without an open file, gets through
    the lines without an exception: every numeric field that reaches [int()]
    must be accepted, and must come after an [SF:] line. *)
Fixpoint acceptable (opened : bool) (lines : list string) : bool :=
  match lines with
  | [] => true
  | l :: ls =>
      match classify l with
      | RecSF => acceptable true ls
      | _ =>
          match numeric_field l with
          | None => acceptable opened ls
          | Some fld =>
              opened
              && match parse_int fld with
                 | Some _ => true
                 | None => false
                 end
              && acceptable opened ls
          end
      end
  end.

Definition has_file (st : parser_state) : bool :=
  match current_file st with
  | Some _ => true
  | None => false
  end.

(** No [LF:] and no [LH:] record. *)
Definition no_summary (l : string) : Prop :=
  classify l <> RecLF /\ classify l <> RecLH.

(** Counts as [DA:] records alone can produce them. *)
Definition in_range (d : file_data) : Prop :=
  0 <= lines_hit d <= lines_found d.

(** Whether the listing loop prints a block for the path. *)
Definition listed (fc : dict file_data) (p : string) : bool :=
  match dict_lookup fc p with
  | Some d => lines_found d >? 0
  | None => false
  end.

(** The text made of the given lines, each ended by a carriage return and a
    newline. *)
Definition unlines_crlf (ls : list string) : string :=
  String.concat "" (map (fun l => l ++ String CR (String NL "")) ls).

(** A line that holds neither a newline nor a carriage return. *)
Fixpoint one_line (l : string) : bool :=
  match l with
  | EmptyString => true
  | String c l' => negb (Ascii.eqb c NL) && negb (Ascii.eqb c CR) && one_line l'
  end.

(** A significand with its rounding location stands for a value between the
    significand and the next integer; [upper] is the least integer that
    value cannot exceed. *)
Definition upper (m : Z) (l : location) : Z :=
  match l with
  | loc_Exact => m
  | loc_Inexact _ => m + 1
  end.

(** A float that is zero or positive, with a value between [lo * 2^g] and
    [hi * 2^g]. *)
Definition between (lo hi g : Z) (x : float) : Prop :=
  match x with
  | S754_zero s => s = false /\ lo <= 0
  | S754_finite s m e =>
      s = false /\ e <= g /\ lo * 2 ^ (g - e) <= Zpos m <= hi * 2 ^ (g - e)
  | S754_infinity _ | S754_nan => False
  end.

(** The default limit of the interpreter on the decimal digits of an int
    converted to or from text. *)
Definition max_str_digits : Z := 4300.

Definition within_limit (n : Z) : bool := Z.abs n <? 10 ^ max_str_digits.

(** Every count the report formats is within that limit: the counts of the
    files it lists, and the totals when it prints them. *)
Definition within_digit_limit (fc : dict file_data) : bool :=
  forallb (fun d => implb (lines_found d >? 0)
                      (within_limit (lines_hit d)
                       && within_limit (lines_found d)))
          (values fc)
  && implb (total_lines_found fc >? 0)
       (within_limit (total_lines_hit fc)
        && within_limit (total_lines_found fc)).

(** No text handed to [int()] is longer than the limit. *)
Definition short_fields (lines : list string) : bool :=
  forallb (fun l => match numeric_field l with
                    | Some fld => (String.length fld <=? 4300)%nat
                    | None => true
                    end) lines.

(** ** Facts about the built-ins *)

Lemma startswith_split (p s : string) :
  startswith s p = true -> s = p ++ slice_from (String.length p) s.
Proof.
  unfold startswith. revert s.
  induction p as [|a p IH]; intros s H.
  - reflexivity.
  - destruct s as [|b s]; simpl in H; [discriminate H|].
    destruct (ascii_dec a b) as [->|]; [|discriminate H].
    simpl. f_equal. now apply IH.
Qed.

Lemma rstrip_nonspace (c : ascii) (s : string) :
  isspace c = false -> rstrip (String c s) = String c (rstrip s).
Proof.
  intros Hc. simpl. destruct (rstrip s); [now rewrite Hc | reflexivity].
Qed.

Lemma lstrip_nonspace (c : ascii) (s : string) :
  isspace c = false -> lstrip (String c s) = String c s.
Proof. intros Hc. simpl. now rewrite Hc. Qed.

Lemma split_nonempty (sep : ascii) (s : string) : split sep s <> [].
Proof.
  destruct s as [|c s]; simpl; [discriminate|].
  destruct (Ascii.eqb c sep); [discriminate|].
  destruct (split sep s); discriminate.
Qed.

Lemma dict_lookup_setitem_same {V : Type} (d : dict V) (k : string) (v : V) :
  dict_lookup (setitem d k v) k = Some v.
Proof.
  induction d as [|[k' v'] d IH]; simpl.
  - now rewrite String.eqb_refl.
  - destruct (String.eqb k' k) eqn:E; simpl; rewrite E; auto.
Qed.

Lemma dict_lookup_setitem_other {V : Type} (d : dict V) (k k' : string) (v : V) :
  k <> k' -> dict_lookup (setitem d k v) k' = dict_lookup d k'.
Proof.
  intros Hne. induction d as [|[k0 v0] d IH]; simpl.
  - destruct (String.eqb_spec k k'); [contradiction | reflexivity].
  - destruct (String.eqb_spec k0 k) as [->|Hk]; simpl.
    + destruct (String.eqb_spec k k'); [contradiction | reflexivity].
    + now rewrite IH.
Qed.

(** ** The dispatch of [process_line], branch by branch *)

Ltac dispatch :=
  unfold classify, process_line, da_parts, payload;
  repeat match goal with
         | |- context [startswith ?s ?p] => destruct (startswith s p)
         end;
  intros H; first [discriminate H | reflexivity].

Lemma process_line_SF (st : parser_state) (raw : string) :
  classify raw = RecSF ->
  process_line st raw =
    Ok {| files_coverage :=
            setitem (files_coverage st) (payload raw)
                    {| lines_found := 0; lines_hit := 0 |};
          current_file := Some (payload raw) |}.
Proof. dispatch. Qed.

Lemma process_line_DA (st : parser_state) (raw : string) :
  classify raw = RecDA ->
  process_line st raw =
    if (2 <=? List.length (da_parts raw))%nat then
      hit_count <- int (nth 1 (da_parts raw) "") ;;
      fc1 <- update (files_coverage st) (current_file st) incr_lines_found ;;
      if hit_count >? 0 then
        fc2 <- update fc1 (current_file st) incr_lines_hit ;;
        Ok {| files_coverage := fc2; current_file := current_file st |}
      else Ok {| files_coverage := fc1; current_file := current_file st |}
    else Ok st.
Proof. dispatch. Qed.

Lemma process_line_LF (st : parser_state) (raw : string) :
  classify raw = RecLF ->
  process_line st raw =
    (n <- int (payload raw) ;;
     fc1 <- update (files_coverage st) (current_file st) (set_lines_found n) ;;
     Ok {| files_coverage := fc1; current_file := current_file st |}).
Proof. dispatch. Qed.

Lemma process_line_LH (st : parser_state) (raw : string) :
  classify raw = RecLH ->
  process_line st raw =
    (n <- int (payload raw) ;;
     fc1 <- update (files_coverage st) (current_file st) (set_lines_hit n) ;;
     Ok {| files_coverage := fc1; current_file := current_file st |}).
Proof. dispatch. Qed.

Lemma process_line_Other (st : parser_state) (raw : string) :
  classify raw = RecOther -> process_line st raw = Ok st.
Proof. dispatch. Qed.

Lemma int_raises (s : string) (e : exception) :
  int s = Raise e -> e = ValueError s.
Proof.
  unfold int. destruct (parse_int s); intros H; [discriminate H|].
  now injection H as <-.
Qed.

Lemma update_no_file (fc : dict file_data) (f : file_data -> file_data) :
  update fc None f = Raise (KeyError None).
Proof. reflexivity. Qed.

Lemma update_open_file (fc : dict file_data) (p : string) (d : file_data)
    (f : file_data -> file_data) :
  dict_lookup fc p = Some d -> update fc (Some p) f = Ok (setitem fc p (f d)).
Proof. intros H. unfold update, getitem. now rewrite H. Qed.

(** ** Running the whole script *)

Lemma analyze_parse_raises (fs : filesystem) (name text : string) (e : exception) :
  fs name = Text text ->
  parse_lines initial_state (readlines text) = Raise e ->
  analyze_lcov_file fs name = ([], Raise e).
Proof.
  intros Hfs Hp. unfold analyze_lcov_file, open. rewrite Hfs. simpl.
  now rewrite Hp.
Qed.

Lemma analyze_parse_ok (fs : filesystem) (name text : string) (st : parser_state) :
  fs name = Text text ->
  parse_lines initial_state (readlines text) = Ok st ->
  analyze_lcov_file fs name = report (files_coverage st).
Proof.
  intros Hfs Hp. unfold analyze_lcov_file, open. rewrite Hfs. simpl.
  rewrite Hp. simpl. now destruct (report (files_coverage st)).
Qed.

(** ** Records met before any [SF:] line *)

Section BeforeAnySF.

Variable st : parser_state.
Hypothesis no_file_yet : current_file st = None.

Lemma record_without_file_raises (raw : string) :
  numeric_field raw <> None ->
  exists e, process_line st raw = Raise e
            /\ (e = KeyError None \/ exists s, e = ValueError s).
Proof.
  unfold numeric_field. intros Hnum.
  destruct (classify raw) eqn:K; try (now elim Hnum).
  - rewrite (process_line_DA st raw K).
    destruct (2 <=? List.length (da_parts raw))%nat; [|now elim Hnum].
    destruct (int (nth 1 (da_parts raw) "")) as [k|e] eqn:E; simpl.
    + rewrite no_file_yet. simpl. eauto.
    + apply int_raises in E. subst e. eauto.
  - rewrite (process_line_LF st raw K).
    destruct (int (payload raw)) as [k|e] eqn:E; simpl.
    + rewrite no_file_yet. simpl. eauto.
    + apply int_raises in E. subst e. eauto.
  - rewrite (process_line_LH st raw K).
    destruct (int (payload raw)) as [k|e] eqn:E; simpl.
    + rewrite no_file_yet. simpl. eauto.
    + apply int_raises in E. subst e. eauto.
Qed.

Lemma skipped_without_file (raw : string) (st' : parser_state) :
  classify raw <> RecSF -> process_line st raw = Ok st' -> st' = st.
Proof.
  intros HSF Hok.
  destruct (numeric_field raw) as [fld|] eqn:Hnum.
  - destruct (record_without_file_raises raw) as (e & He & _).
    + now rewrite Hnum.
    + rewrite He in Hok. discriminate Hok.
  - unfold numeric_field in Hnum.
    destruct (classify raw) eqn:K; try discriminate Hnum; try (now elim HSF).
    + rewrite (process_line_DA st raw K) in Hok.
      destruct (2 <=? List.length (da_parts raw))%nat; [discriminate Hnum|].
      now injection Hok as <-.
    + rewrite (process_line_Other st raw K) in Hok. now injection Hok as <-.
Qed.

End BeforeAnySF.

Lemma parse_before_SF_raises (pre post : list string) (raw : string)
    (st : parser_state) :
  current_file st = None ->
  Forall (fun l => classify l <> RecSF) pre ->
  numeric_field raw <> None ->
  exists e, parse_lines st (pre ++ raw :: post) = Raise e
            /\ (e = KeyError None \/ exists s, e = ValueError s).
Proof.
  intros Hcf Hpre Hnum. induction Hpre as [|l pre Hl Hpre IH]; simpl.
  - destruct (record_without_file_raises st Hcf raw Hnum) as (e & He & Hk).
    exists e. now rewrite He.
  - destruct (process_line st l) as [st'|e] eqn:E; simpl.
    + apply (skipped_without_file st Hcf l st' Hl) in E. subst st'. exact IH.
    + destruct (numeric_field l) as [fld|] eqn:Hf.
      * destruct (record_without_file_raises st Hcf l) as (e' & He' & Hk).
        { now rewrite Hf. }
        rewrite He' in E. injection E as <-. eauto.
      * exfalso. unfold numeric_field in Hf.
        destruct (classify l) eqn:K; try discriminate Hf; try (now elim Hl).
        -- rewrite (process_line_DA st l K) in E.
           destruct (2 <=? List.length (da_parts l))%nat; discriminate.
        -- rewrite (process_line_Other st l K) in E. discriminate E.
Qed.

(** C1: when a [DA:] (with two fields or more), [LF:] or [LH:] record comes
    before every [SF:] line, the script neither skips it nor reports a
    malformed input: the loop stops on an uncaught [KeyError: None] (or on
    the [ValueError] of [int()] if a numeric field met on the way is not an
    integer), and nothing is printed. *)
Theorem record_before_SF_raises (fs : filesystem) (name text : string)
    (pre post : list string) (raw : string) :
  fs name = Text text ->
  readlines text = (pre ++ raw :: post)%list ->
  Forall (fun l => classify l <> RecSF) pre ->
  numeric_field raw <> None ->
  exists e,
    parse_lines initial_state (pre ++ raw :: post) = Raise e
    /\ (e = KeyError None \/ exists s, e = ValueError s)
    /\ analyze_lcov_file fs name = ([], Raise e).
Proof.
  intros Hfs Hlines Hpre Hnum.
  destruct (parse_before_SF_raises pre post raw initial_state eq_refl Hpre Hnum)
    as (e & He & Hk).
  exists e. repeat split; auto.
  apply (analyze_parse_raises fs name text e Hfs). now rewrite Hlines.
Qed.

Lemma record_before_SF_raises_witness :
  exists e,
    parse_lines initial_state
      ([ended "TN:"] ++ ended "DA:1,1" :: [ended "SF:a.py"]) = Raise e
    /\ (e = KeyError None \/ exists s, e = ValueError s)
    /\ analyze_lcov_file (only_file (unlines ["TN:"; "DA:1,1"; "SF:a.py"]))
         "coverage/lcov.info" = ([], Raise e).
Proof.
  apply (record_before_SF_raises
           (only_file (unlines ["TN:"; "DA:1,1"; "SF:a.py"]))
           "coverage/lcov.info" (unlines ["TN:"; "DA:1,1"; "SF:a.py"])
           [ended "TN:"] [ended "SF:a.py"] (ended "DA:1,1")).
  - reflexivity.
  - reflexivity.
  - repeat constructor. discriminate.
  - discriminate.
Defined.

(** What the script does on the smallest such inputs. *)
Example DA_before_SF :
  main (only_file (unlines ["DA:1,1"])) = ([], Raise (KeyError None))
  /\ main (only_file (unlines ["DA:1,1"; "SF:a.py"])) = ([], Raise (KeyError None))
  /\ exit_status (main (only_file (unlines ["DA:1,1"]))) = 1.
Proof. repeat split; reflexivity. Qed.

Example LF_before_SF :
  process_line initial_state "LF:10" = Raise (KeyError None)
  /\ process_line initial_state "LH:4" = Raise (KeyError None).
Proof. split; reflexivity. Qed.

(** ** A missing or unreadable input file *)

(** C2, as stated, fails: with no file at the path, the run does end with a
    failure status and prints nothing, but it ends through an exception that
    nothing catches. *)
Lemma missing_file_is_uncaught :
  uncaught (main no_file) = Some (FileNotFoundError "coverage/lcov.info")
  /\ ~ graceful_abort (main no_file).
Proof.
  split; [reflexivity|].
  intros (_ & _ & H). discriminate H.
Qed.

(** C2 (amended): when the input file is absent or unreadable, the script
    ends through the uncaught exception of [open] ([FileNotFoundError] or
    [PermissionError]), which gives exit status 1, and no part of the report
    is printed. *)
Theorem missing_file_aborts (fs : filesystem) :
  fs "coverage/lcov.info" = Absent \/ fs "coverage/lcov.info" = Unreadable ->
  stdout (main fs) = []
  /\ exit_status (main fs) = 1
  /\ uncaught (main fs) =
       Some (match fs "coverage/lcov.info" with
             | Unreadable => PermissionError "coverage/lcov.info"
             | _ => FileNotFoundError "coverage/lcov.info"
             end).
Proof.
  intros H. unfold main, analyze_lcov_file, open, exit_status, uncaught, stdout.
  destruct H as [H|H]; rewrite H; simpl; auto.
Qed.

Lemma missing_file_aborts_witness :
  stdout (main no_file) = []
  /\ exit_status (main no_file) = 1
  /\ uncaught (main no_file) = Some (FileNotFoundError "coverage/lcov.info").
Proof. apply (missing_file_aborts no_file). left. reflexivity. Defined.

(** ** Malformed records *)

(** C3, as stated, fails: a numeric field that is not an integer is not
    passed over.  After [SF:a.py], the line [LF:abc] raises [ValueError]; the
    run ends there and prints nothing, not even the counts gathered so far. *)
Lemma non_integer_field_aborts :
  process_line {| files_coverage := [("a.py", {| lines_found := 1; lines_hit := 1 |})];
                  current_file := Some "a.py" |} "LF:abc"
    = Raise (ValueError "abc")
  /\ main (only_file (unlines ["SF:a.py"; "DA:1,1"; "LF:abc"]))
     = ([], Raise (ValueError "abc"))
  /\ exit_status (main (only_file (unlines ["SF:a.py"; "DA:1,1"; "LF:abc"]))) = 1.
Proof. repeat split; reflexivity. Qed.

Lemma parse_lines_app (st : parser_state) (l1 l2 : list string) :
  parse_lines st (l1 ++ l2)
  = bind (parse_lines st l1) (fun st' => parse_lines st' l2).
Proof.
  revert st. induction l1 as [|l l1 IH]; intros st; simpl.
  - reflexivity.
  - destruct (process_line st l) as [st'|e]; simpl; [apply IH | reflexivity].
Qed.

Lemma skipped_line_drops (raw : string) (pre rest : list string)
    (st : parser_state) :
  (forall st', process_line st' raw = Ok st') ->
  parse_lines st (pre ++ raw :: rest) = parse_lines st (pre ++ rest).
Proof.
  intros Hskip. rewrite !parse_lines_app.
  destruct (parse_lines st pre) as [st'|e]; simpl; [|reflexivity].
  now rewrite Hskip.
Qed.

Lemma same_lines_same_run (fs fs' : filesystem) (name text text' : string) :
  fs name = Text text -> fs' name = Text text' ->
  parse_lines initial_state (readlines text)
  = parse_lines initial_state (readlines text') ->
  analyze_lcov_file fs name = analyze_lcov_file fs' name.
Proof.
  intros Hfs Hfs' Hp. unfold analyze_lcov_file, open.
  rewrite Hfs, Hfs'. simpl. now rewrite Hp.
Qed.

(** C3 (amended): a [DA:] line with fewer than two comma-separated fields,
    and a line with none of the four prefixes, leave the state as it is and
    raise nothing: the loop goes on with the next line, and the run is the
    one of the same file without that line.  A [DA:], [LF:] or [LH:] record
    whose numeric field [int()] rejects is not skipped: the line raises that
    [ValueError], no later line is read, and since nothing catches the
    exception, a run that reaches the line ends on it with exit status 1 and
    with nothing printed. *)
Theorem malformed_record_outcome (st : parser_state) (raw : string) :
  (classify raw = RecOther
   \/ (classify raw = RecDA /\ (List.length (da_parts raw) < 2)%nat) ->
   process_line st raw = Ok st
   /\ (forall rest, parse_lines st (raw :: rest) = parse_lines st rest)
   /\ (forall (fs fs' : filesystem) name text text' pre rest,
         fs name = Text text -> fs' name = Text text' ->
         readlines text = (pre ++ raw :: rest)%list ->
         readlines text' = (pre ++ rest)%list ->
         analyze_lcov_file fs name = analyze_lcov_file fs' name))
  /\ (forall fld, numeric_field raw = Some fld -> parse_int fld = None ->
      process_line st raw = Raise (ValueError fld)
      /\ (forall rest, parse_lines st (raw :: rest) = Raise (ValueError fld))
      /\ (forall (fs : filesystem) name text pre rest,
            fs name = Text text ->
            readlines text = (pre ++ raw :: rest)%list ->
            parse_lines initial_state pre = Ok st ->
            analyze_lcov_file fs name = ([], Raise (ValueError fld))
            /\ stdout (analyze_lcov_file fs name) = []
            /\ uncaught (analyze_lcov_file fs name) = Some (ValueError fld)
            /\ exit_status (analyze_lcov_file fs name) = 1)).
Proof.
  split.
  - intros Hskip.
    assert (Hall : forall st', process_line st' raw = Ok st').
    { intros st'. destruct Hskip as [K|[K Hlen]].
      - now apply process_line_Other.
      - rewrite (process_line_DA st' raw K).
        apply Nat.leb_gt in Hlen. now rewrite Hlen. }
    split; [apply Hall|]. split.
    + intros rest. cbn [parse_lines]. now rewrite Hall.
    + intros fs fs' name text text' pre rest Hfs Hfs' Hl Hl'.
      apply (same_lines_same_run fs fs' name text text' Hfs Hfs').
      rewrite Hl, Hl'. now apply skipped_line_drops.
  - intros fld Hnum Hint.
    assert (Hraise : int fld = Raise (ValueError fld))
      by (unfold int; now rewrite Hint).
    assert (Hline : process_line st raw = Raise (ValueError fld)).
    { unfold numeric_field in Hnum.
      destruct (classify raw) eqn:K; try discriminate Hnum.
      + rewrite (process_line_DA st raw K).
        destruct (2 <=? List.length (da_parts raw))%nat; [|discriminate Hnum].
        injection Hnum as ->. now rewrite Hraise.
      + rewrite (process_line_LF st raw K).
        injection Hnum as ->. now rewrite Hraise.
      + rewrite (process_line_LH st raw K).
        injection Hnum as ->. now rewrite Hraise. }
    split; [exact Hline|]. split.
    + intros rest. cbn [parse_lines]. now rewrite Hline.
    + intros fs name text pre rest Hfs Hl Hpre.
      assert (Hrun : analyze_lcov_file fs name = ([], Raise (ValueError fld))).
      { apply (analyze_parse_raises fs name text _ Hfs).
        rewrite Hl, parse_lines_app, Hpre. cbn [bind parse_lines].
        now rewrite Hline. }
      rewrite Hrun. repeat split; reflexivity.
Qed.

Lemma malformed_record_outcome_witness :
  (process_line initial_state (ended "DA:7") = Ok initial_state
   /\ analyze_lcov_file (only_file (unlines ["SF:a.py"; "DA:7"; "DA:1,1"]))
        "coverage/lcov.info"
      = analyze_lcov_file (only_file (unlines ["SF:a.py"; "DA:1,1"]))
          "coverage/lcov.info")
  /\ (process_line
        {| files_coverage := [("a.py", {| lines_found := 1; lines_hit := 1 |})];
           current_file := Some "a.py" |} (ended "LF:abc")
      = Raise (ValueError "abc")
      /\ analyze_lcov_file
           (only_file (unlines ["SF:a.py"; "DA:1,1"; "LF:abc"; "LH:1"]))
           "coverage/lcov.info"
         = ([], Raise (ValueError "abc"))
      /\ exit_status
           (analyze_lcov_file
              (only_file (unlines ["SF:a.py"; "DA:1,1"; "LF:abc"; "LH:1"]))
              "coverage/lcov.info") = 1).
Proof.
  split.
  - assert (Hskip : classify (ended "DA:7") = RecOther
                    \/ (classify (ended "DA:7") = RecDA
                        /\ (List.length (da_parts (ended "DA:7")) < 2)%nat))
      by (right; split; [reflexivity | simpl; lia]).
    destruct (proj1 (malformed_record_outcome initial_state (ended "DA:7")) Hskip)
      as (Hline & _ & Hrun).
    split; [exact Hline|].
    apply (Hrun (only_file (unlines ["SF:a.py"; "DA:7"; "DA:1,1"]))
                (only_file (unlines ["SF:a.py"; "DA:1,1"]))
                "coverage/lcov.info"
                (unlines ["SF:a.py"; "DA:7"; "DA:1,1"])
                (unlines ["SF:a.py"; "DA:1,1"])
                [ended "SF:a.py"] [ended "DA:1,1"]); reflexivity.
  - destruct (proj2 (malformed_record_outcome
                       {| files_coverage :=
                            [("a.py", {| lines_found := 1; lines_hit := 1 |})];
                          current_file := Some "a.py" |} (ended "LF:abc"))
                    "abc" eq_refl eq_refl)
      as (Hline & _ & Hrun).
    split; [exact Hline|].
    destruct (Hrun (only_file (unlines ["SF:a.py"; "DA:1,1"; "LF:abc"; "LH:1"]))
                   "coverage/lcov.info"
                   (unlines ["SF:a.py"; "DA:1,1"; "LF:abc"; "LH:1"])
                   [ended "SF:a.py"; ended "DA:1,1"] [ended "LH:1"]
                   eq_refl eq_refl eq_refl)
      as (H1 & _ & _ & H4).
    split; [exact H1 | exact H4].
Defined.

(** ** [SF:] lines *)

Lemma rstrip_fixed_tail (c : ascii) (s : string) :
  rstrip (String c s) = String c s -> rstrip s = s.
Proof.
  simpl. destruct (rstrip s) as [|a t] eqn:E.
  - destruct (isspace c); intros H; [discriminate H|].
    now injection H as <-.
  - intros H. now injection H as <-.
Qed.

Lemma rstrip_slice_from (n : nat) (s : string) :
  rstrip s = s -> rstrip (slice_from n s) = slice_from n s.
Proof.
  revert s. induction n as [|n IH]; intros s H; [exact H|].
  destruct s as [|c s]; [reflexivity|].
  simpl. apply IH. now apply rstrip_fixed_tail with c.
Qed.

Lemma rstrip_idempotent (s : string) : rstrip (rstrip s) = rstrip s.
Proof.
  induction s as [|c s IH]; [reflexivity|].
  simpl. destruct (rstrip s) as [|a t] eqn:E.
  - destruct (isspace c) eqn:Hc; [reflexivity|].
    simpl. now rewrite Hc.
  - change (rstrip (String c (String a t)) = String c (String a t)).
    cbn [rstrip]. cbn [rstrip] in IH. rewrite IH. reflexivity.
Qed.

Lemma strip_SF_line (p : string) : strip ("SF:" ++ p) = "SF:" ++ rstrip p.
Proof.
  unfold strip. simpl append.
  rewrite lstrip_nonspace by reflexivity.
  now rewrite !rstrip_nonspace by reflexivity.
Qed.

(** C9, as stated, fails: the blanks between [SF:] and the path stay in the
    key, so [SF:  a.py  ] and [SF:a.py] open different entries. *)
Lemma SF_keeps_leading_blanks :
  process_line initial_state "SF:  a.py  "
    = Ok {| files_coverage := [("  a.py", {| lines_found := 0; lines_hit := 0 |})];
            current_file := Some "  a.py" |}
  /\ process_line initial_state "SF:a.py"
    = Ok {| files_coverage := [("a.py", {| lines_found := 0; lines_hit := 0 |})];
            current_file := Some "a.py" |}
  /\ process_line initial_state "SF:  a.py  " <> process_line initial_state "SF:a.py".
Proof. repeat split; try reflexivity. discriminate. Qed.

(** C9 (amended): for a line that starts with [SF:] once the whole line is
    trimmed, the path is everything after the prefix of the trimmed line: it
    has no trailing white space, but white space between [SF:] and the path
    is kept (for [SF:] followed by [p] the key is [p] trimmed on the right
    only).  The parser makes that path the current file and sets its entry
    to zero lines found and zero lines hit. *)
Theorem SF_record_opens_entry (st : parser_state) (raw : string) :
  classify raw = RecSF ->
  process_line st raw =
    Ok {| files_coverage :=
            setitem (files_coverage st) (payload raw)
                    {| lines_found := 0; lines_hit := 0 |};
          current_file := Some (payload raw) |}
  /\ dict_lookup
       (setitem (files_coverage st) (payload raw)
                {| lines_found := 0; lines_hit := 0 |}) (payload raw)
     = Some {| lines_found := 0; lines_hit := 0 |}
  /\ rstrip (payload raw) = payload raw
  /\ (forall p, raw = "SF:" ++ p -> payload raw = rstrip p).
Proof.
  intros K. repeat split.
  - now apply process_line_SF.
  - apply dict_lookup_setitem_same.
  - unfold payload, strip. apply rstrip_slice_from, rstrip_idempotent.
  - intros p ->. unfold payload. now rewrite strip_SF_line.
Qed.

Lemma SF_record_opens_entry_witness :
  process_line initial_state "  SF: a.py  " =
    Ok {| files_coverage :=
            setitem [] (payload "  SF: a.py  ")
                    {| lines_found := 0; lines_hit := 0 |};
          current_file := Some (payload "  SF: a.py  ") |}
  /\ payload "  SF: a.py  " = " a.py".
Proof.
  split; [|reflexivity].
  apply (proj1 (SF_record_opens_entry initial_state "  SF: a.py  " eq_refl)).
Defined.

(** ** One file block: the lines between an [SF:] line and the next *)

Lemma setitem_twice {V : Type} (d : dict V) (k : string) (a b : V) :
  setitem (setitem d k a) k b = setitem d k b.
Proof.
  induction d as [|[k' v'] d IH]; simpl.
  - now rewrite String.eqb_refl.
  - destruct (String.eqb k' k) eqn:E; simpl; rewrite E; [reflexivity|].
    now rewrite IH.
Qed.

Section OpenFile.

Variables (st : parser_state) (p : string) (d : file_data).
Hypothesis open_file : current_file st = Some p.
Hypothesis entry : dict_lookup (files_coverage st) p = Some d.

Lemma counted_DA_step (raw : string) (k : Z) :
  classify raw = RecDA ->
  (2 <= List.length (da_parts raw))%nat ->
  int (nth 1 (da_parts raw) "") = Ok k ->
  process_line st raw =
    Ok {| files_coverage :=
            setitem (files_coverage st) p
              {| lines_found := lines_found d + 1;
                 lines_hit := if k >? 0 then lines_hit d + 1 else lines_hit d |};
          current_file := Some p |}.
Proof.
  intros K Hlen Hint. rewrite (process_line_DA st raw K).
  apply Nat.leb_le in Hlen. rewrite Hlen, Hint, open_file. simpl.
  rewrite (update_open_file _ p d _ entry). simpl.
  destruct (k >? 0); [|reflexivity].
  rewrite (update_open_file _ p (incr_lines_found d)).
  - simpl. now rewrite setitem_twice.
  - apply dict_lookup_setitem_same.
Qed.

Lemma process_line_entry (raw : string) (st' : parser_state) :
  classify raw <> RecSF ->
  process_line st raw = Ok st' ->
  current_file st' = Some p
  /\ dict_lookup (files_coverage st') p = Some (entry_after raw d).
Proof.
  intros HSF Hok. unfold entry_after, hit_DA, counted_DA.
  destruct (classify raw) eqn:K; try (now elim HSF).
  - destruct (2 <=? List.length (da_parts raw))%nat eqn:Hlen.
    + destruct (int (nth 1 (da_parts raw) "")) as [k|e] eqn:Hint.
      * apply Nat.leb_le in Hlen.
        rewrite (counted_DA_step raw k K Hlen Hint) in Hok.
        injection Hok as <-. simpl. split; [reflexivity|].
        rewrite dict_lookup_setitem_same.
        now destruct (k >? 0).
      * rewrite (process_line_DA st raw K), Hlen, Hint in Hok.
        discriminate Hok.
    + rewrite (process_line_DA st raw K), Hlen in Hok.
      injection Hok as <-. auto.
  - rewrite (process_line_LF st raw K) in Hok.
    destruct (int (payload raw)) as [n|e]; [|discriminate Hok].
    simpl in Hok. rewrite open_file, (update_open_file _ p d _ entry) in Hok.
    injection Hok as <-. simpl. split; [reflexivity|].
    apply dict_lookup_setitem_same.
  - rewrite (process_line_LH st raw K) in Hok.
    destruct (int (payload raw)) as [n|e]; [|discriminate Hok].
    simpl in Hok. rewrite open_file, (update_open_file _ p d _ entry) in Hok.
    injection Hok as <-. simpl. split; [reflexivity|].
    apply dict_lookup_setitem_same.
  - rewrite (process_line_Other st raw K) in Hok.
    injection Hok as <-. auto.
Qed.

End OpenFile.

Lemma parse_block (block : list string) :
  forall (st st' : parser_state) (p : string) (d : file_data),
    current_file st = Some p ->
    dict_lookup (files_coverage st) p = Some d ->
    Forall (fun l => classify l <> RecSF) block ->
    parse_lines st block = Ok st' ->
    current_file st' = Some p
    /\ dict_lookup (files_coverage st') p = Some (block_after block d).
Proof.
  induction block as [|l block IH]; intros st st' p d Hcf Hd Hblock Hok.
  - injection Hok as <-. auto.
  - inversion Hblock as [|? ? Hl Hrest]; subst.
    simpl in Hok. destruct (process_line st l) as [st1|e] eqn:E; [|discriminate Hok].
    destruct (process_line_entry st p d Hcf Hd l st1 Hl E) as [Hcf1 Hd1].
    apply (IH st1 st' p (entry_after l d) Hcf1 Hd1 Hrest Hok).
Qed.

Lemma count_lines_cons (f : string -> bool) (l : string) (ls : list string) :
  count_lines f (l :: ls) = (if f l then 1 else 0) + count_lines f ls.
Proof.
  unfold count_lines. simpl. destruct (f l); simpl List.length; lia.
Qed.

Lemma entry_after_found (l : string) (d : file_data) :
  classify l <> RecLF ->
  lines_found (entry_after l d)
  = lines_found d + (if counted_DA l then 1 else 0).
Proof.
  intros Hl. unfold entry_after, hit_DA, counted_DA.
  destruct (classify l); try (now elim Hl); try (simpl; lia).
  - destruct (2 <=? List.length (da_parts l))%nat; [|simpl; lia].
    destruct (int (nth 1 (da_parts l) "")) as [k|e]; [|simpl; lia].
    destruct (k >? 0); simpl; lia.
  - destruct (int (payload l)); simpl; lia.
Qed.

Lemma entry_after_hit (l : string) (d : file_data) :
  classify l <> RecLH ->
  lines_hit (entry_after l d)
  = lines_hit d + (if hit_DA l then 1 else 0).
Proof.
  intros Hl. unfold entry_after, hit_DA, counted_DA.
  destruct (classify l); try (now elim Hl); try (simpl; lia).
  - destruct (2 <=? List.length (da_parts l))%nat; [|simpl; lia].
    destruct (int (nth 1 (da_parts l) "")) as [k|e]; [|simpl; lia].
    destruct (k >? 0); simpl; lia.
  - destruct (int (payload l)); simpl; lia.
Qed.

Lemma found_after_DA_only (post : list string) :
  forall d,
    Forall (fun l => classify l <> RecLF) post ->
    lines_found (block_after post d) = lines_found d + count_lines counted_DA post.
Proof.
  induction post as [|l post IH]; intros d Hpost.
  - unfold count_lines. simpl. lia.
  - inversion Hpost as [|? ? Hl Hrest]; subst.
    change (block_after (l :: post) d) with (block_after post (entry_after l d)).
    rewrite (IH _ Hrest), count_lines_cons, (entry_after_found l d Hl). lia.
Qed.

Lemma hit_after_DA_only (post : list string) :
  forall d,
    Forall (fun l => classify l <> RecLH) post ->
    lines_hit (block_after post d) = lines_hit d + count_lines hit_DA post.
Proof.
  induction post as [|l post IH]; intros d Hpost.
  - unfold count_lines. simpl. lia.
  - inversion Hpost as [|? ? Hl Hrest]; subst.
    change (block_after (l :: post) d) with (block_after post (entry_after l d)).
    rewrite (IH _ Hrest), count_lines_cons, (entry_after_hit l d Hl). lia.
Qed.

Lemma block_after_app (pre post : list string) (d : file_data) :
  block_after (pre ++ post) d = block_after post (block_after pre d).
Proof. unfold block_after. apply fold_left_app. Qed.

(** C4, as stated, fails: a [DA:] record that comes after the [LF:] and
    [LH:] records of its file still adds to the counts, so the last
    [LF:]/[LH:] values (here 10 and 4) are not the final ones. *)
Lemma DA_after_LF_still_counts :
  parse_lines initial_state ["SF:a.py"; "LF:10"; "LH:4"; "DA:1,1"]
    = Ok {| files_coverage := [("a.py", {| lines_found := 11; lines_hit := 5 |})];
            current_file := Some "a.py" |}
  /\ stdout (main (only_file (unlines ["SF:a.py"; "LF:10"; "LH:4"; "DA:1,1"])))
     = [title; separator; "a.py"; "  Lines: 5/11 (45.5%)"; separator;
        "Total Coverage: 5/11 lines (45.5%)"].
Proof. split; reflexivity. Qed.

(** C4 (amended): within one file block (an [SF:] line and the lines up to
    the next [SF:] line), when the block is read without an exception, an
    [LF:] record replaces whatever [lines_found] held, and an [LH:] record
    replaces [lines_hit]; the final [lines_found] is the value of the last
    [LF:] record plus one for every [DA:] record with two fields or more
    that follows it, and the final [lines_hit] is the value of the last
    [LH:] record plus one for every such [DA:] record with a positive hit
    count that follows it.  Without any [LF:] (or [LH:]) record the count
    is the number of those [DA:] records in the block. *)
Theorem last_summary_record_then_DA (st0 st' : parser_state) (sf : string)
    (block : list string) :
  classify sf = RecSF ->
  Forall (fun l => classify l <> RecSF) block ->
  parse_lines st0 (sf :: block) = Ok st' ->
  exists d,
    dict_lookup (files_coverage st') (payload sf) = Some d
    /\ (forall pre raw post n,
          block = (pre ++ raw :: post)%list ->
          classify raw = RecLF -> int (payload raw) = Ok n ->
          Forall (fun l => classify l <> RecLF) post ->
          lines_found d = n + count_lines counted_DA post)
    /\ (forall pre raw post n,
          block = (pre ++ raw :: post)%list ->
          classify raw = RecLH -> int (payload raw) = Ok n ->
          Forall (fun l => classify l <> RecLH) post ->
          lines_hit d = n + count_lines hit_DA post)
    /\ (Forall (fun l => classify l <> RecLF) block ->
        lines_found d = count_lines counted_DA block)
    /\ (Forall (fun l => classify l <> RecLH) block ->
        lines_hit d = count_lines hit_DA block).
Proof.
  intros K Hblock Hok. simpl in Hok.
  rewrite (process_line_SF st0 sf K) in Hok. simpl in Hok.
  set (zero := {| lines_found := 0; lines_hit := 0 |}) in *.
  destruct (parse_block block
              {| files_coverage := setitem (files_coverage st0) (payload sf) zero;
                 current_file := Some (payload sf) |}
              st' (payload sf) zero eq_refl
              (dict_lookup_setitem_same _ _ _) Hblock Hok) as [_ Hd].
  exists (block_after block zero). split; [exact Hd|]. repeat split.
  - intros pre raw post n -> KLF Hint Hpost.
    rewrite block_after_app.
    change (block_after (raw :: post) ?x)
      with (block_after post (entry_after raw x)).
    rewrite (found_after_DA_only post _ Hpost).
    unfold entry_after. now rewrite KLF, Hint.
  - intros pre raw post n -> KLH Hint Hpost.
    rewrite block_after_app.
    change (block_after (raw :: post) ?x)
      with (block_after post (entry_after raw x)).
    rewrite (hit_after_DA_only post _ Hpost).
    unfold entry_after. now rewrite KLH, Hint.
  - intros HnoLF. now rewrite (found_after_DA_only block zero HnoLF).
  - intros HnoLH. now rewrite (hit_after_DA_only block zero HnoLH).
Qed.

Lemma last_summary_record_then_DA_witness :
  exists d,
    dict_lookup [("a.py", {| lines_found := 12; lines_hit := 5 |})] "a.py" = Some d
    /\ lines_found d = 10 + 2
    /\ lines_hit d = 4 + 1.
Proof.
  destruct (last_summary_record_then_DA initial_state
              {| files_coverage := [("a.py", {| lines_found := 12; lines_hit := 5 |})];
                 current_file := Some "a.py" |}
              "SF:a.py" ["DA:1,1"; "LF:10"; "LH:4"; "DA:2,1"; "DA:3,0"])
    as (d & Hd & HLF & HLH & _).
  - reflexivity.
  - repeat constructor; discriminate.
  - reflexivity.
  - exists d. split; [exact Hd|]. split.
    + apply (HLF ["DA:1,1"] "LF:10" ["LH:4"; "DA:2,1"; "DA:3,0"] 10);
        try reflexivity.
      repeat constructor; discriminate.
    + apply (HLH ["DA:1,1"; "LF:10"] "LH:4" ["DA:2,1"; "DA:3,0"] 4);
        try reflexivity.
      repeat constructor; discriminate.
Defined.

(** ** Formatting a percentage *)


Lemma round_half_even_nearest (num den : Z) :
  0 < den -> 2 * Z.abs (num - round_half_even num den * den) <= den.
Proof.
  intros Hden. unfold round_half_even.
  pose proof (Z.div_mod num den ltac:(lia)) as Hdm.
  pose proof (Z.mod_pos_bound num den Hden) as Hr.
  destruct (Z.compare_spec (2 * (num mod den)) den) as [E|L|G];
    [destruct (Z.even (num / den))| |]; lia.
Qed.

Lemma round_half_even_nonneg (num den : Z) :
  0 <= num -> 0 < den -> 0 <= round_half_even num den.
Proof.
  intros Hnum Hden. unfold round_half_even.
  pose proof (Z.div_pos num den Hnum Hden).
  destruct (2 * (num mod den) ?= den); [destruct (Z.even (num / den))| |]; lia.
Qed.

Lemma tenths_nonneg (m : positive) (e : Z) : 0 <= tenths m e.
Proof.
  unfold tenths. destruct (0 <=? e) eqn:He.
  - apply Z.leb_le in He.
    pose proof (Z.pow_nonneg 2 e ltac:(lia)). nia.
  - apply Z.leb_gt in He. apply round_half_even_nonneg; [lia|].
    apply Z.pow_pos_nonneg; lia.
Qed.

(** The digits [format_1f] prints are those of the nearest tenth of the exact
    binary value. *)
Lemma tenths_nearest (m : positive) (e : Z) :
  e < 0 -> 2 * Z.abs (Zpos m * 10 - tenths m e * 2 ^ (- e)) <= 2 ^ (- e).
Proof.
  intros He. unfold tenths.
  assert (H : (0 <=? e) = false) by now apply Z.leb_gt.
  rewrite H. apply round_half_even_nearest.
  apply Z.pow_pos_nonneg; lia.
Qed.




(** ** [sorted] *)

Lemma le_str_trans (a b c : string) : le_str a b -> le_str b c -> le_str a c.
Proof.
  unfold le_str, String.leb. revert b c.
  induction a as [|x a IH]; intros [|y b] [|z c]; simpl; try easy.
  unfold Ascii.compare.
  destruct (N.compare_spec (N_of_ascii x) (N_of_ascii y)) as [Hxy|Hxy|Hxy];
    destruct (N.compare_spec (N_of_ascii y) (N_of_ascii z)) as [Hyz|Hyz|Hyz];
    destruct (N.compare_spec (N_of_ascii x) (N_of_ascii z)) as [Hxz|Hxz|Hxz];
    try easy; try lia.
  apply IH.
Qed.

Lemma le_str_total (a b : string) : String.leb a b = false -> le_str b a.
Proof.
  intros H. destruct (String.leb_total a b) as [E|E]; [congruence | exact E].
Qed.

Lemma insert_sorted_In (x y : string) (l : list string) :
  In y (insert_sorted x l) <-> y = x \/ In y l.
Proof.
  induction l as [|z l IH]; simpl.
  - intuition.
  - destruct (String.leb x z); simpl; rewrite ?IH; intuition.
Qed.

Lemma insert_sorted_sorted (x : string) (l : list string) :
  StronglySorted le_str l -> StronglySorted le_str (insert_sorted x l).
Proof.
  induction 1 as [|z l Hl IH Hz]; simpl.
  - repeat constructor.
  - destruct (String.leb x z) eqn:E.
    + constructor; [now constructor|].
      constructor; [exact E|].
      eapply Forall_impl; [|exact Hz].
      intros w Hw. now apply (le_str_trans x z w).
    + constructor; [exact IH|].
      apply Forall_forall. intros w Hw.
      apply insert_sorted_In in Hw. destruct Hw as [->|Hw].
      * now apply le_str_total.
      * rewrite Forall_forall in Hz. now apply Hz.
Qed.

Lemma sorted_sorted (l : list string) : StronglySorted le_str (sorted l).
Proof.
  induction l as [|x l IH]; simpl; [constructor|].
  now apply insert_sorted_sorted.
Qed.

Lemma sorted_In (l : list string) (y : string) : In y (sorted l) <-> In y l.
Proof.
  induction l as [|x l IH]; simpl; [reflexivity|].
  rewrite insert_sorted_In, IH. intuition.
Qed.

Lemma insert_sorted_perm (x : string) (l : list string) :
  Permutation (insert_sorted x l) (x :: l).
Proof.
  induction l as [|z l IH]; simpl; [reflexivity|].
  destruct (String.leb x z); [reflexivity|].
  rewrite IH. apply perm_swap.
Qed.

Lemma sorted_perm (l : list string) : Permutation (sorted l) l.
Proof.
  induction l as [|x l IH]; simpl; [constructor|].
  rewrite insert_sorted_perm. now constructor.
Qed.

(** ** The listing loop *)

Lemma stdout_bind {A B : Type} (m : io A) (k : A -> io B) :
  stdout (io_bind m k)
  = (stdout m ++ match snd m with
                 | Ok a => stdout (k a)
                 | Raise _ => []
                 end)%list.
Proof.
  destruct m as [out [a|e]]; simpl.
  - now destruct (k a).
  - now rewrite app_nil_r.
Qed.

Lemma snd_bind {A B : Type} (m : io A) (k : A -> io B) :
  snd (io_bind m k) = match snd m with
                      | Ok a => snd (k a)
                      | Raise e => Raise e
                      end.
Proof.
  destruct m as [out [a|e]]; simpl; [|reflexivity].
  now destruct (k a).
Qed.

(** The three ways one iteration of the listing loop can go. *)
Lemma report_file_cases (fc : dict file_data) (p : string) :
  (exists e, report_file fc p = ([], Raise e))
  \/ (report_file fc p = ([], Ok tt)
      /\ forall d, dict_lookup fc p = Some d -> lines_found d <= 0)
  \/ (exists d c,
         dict_lookup fc p = Some d /\ lines_found d > 0
         /\ percentage (lines_hit d) (lines_found d) = Ok c
         /\ report_file fc p = ([p; lines_line d c], Ok tt)).
Proof.
  unfold report_file, getitem, lift.
  destruct (dict_lookup fc p) as [d|]; simpl; [|left; eauto].
  destruct (lines_found d >? 0) eqn:Hpos.
  - destruct (percentage (lines_hit d) (lines_found d)) as [c|e] eqn:Hc; simpl.
    + right; right. exists d, c.
      apply Z.gtb_lt in Hpos. repeat split; auto; lia.
    + left; eauto.
  - right; left. split; [reflexivity|].
    intros d' [= <-]. rewrite Z.gtb_ltb in Hpos. apply Z.ltb_ge in Hpos. lia.
Qed.

Lemma listing_blocks (fc : dict file_data) (ks : list string) :
  StronglySorted le_str ks ->
  exists blocks,
    stdout (for_each ks (report_file fc)) = flat_map block_lines blocks
    /\ StronglySorted le_str (map fst blocks)
    /\ Forall (fun b => In (fst b) ks
                        /\ exists d c,
                            dict_lookup fc (fst b) = Some d
                            /\ lines_found d > 0
                            /\ percentage (lines_hit d) (lines_found d) = Ok c
                            /\ snd b = lines_line d c) blocks
    /\ (uncaught (for_each ks (report_file fc)) = None ->
        forall p d, In p ks -> dict_lookup fc p = Some d -> lines_found d > 0 ->
                    In p (map fst blocks)).
Proof.
  induction 1 as [|k ks Hks IH Hk].
  - exists []. repeat split; try constructor. intros _ p d [].
  - destruct IH as (blocks & Hout & Hsorted & Hall & Hcomplete).
    assert (Hall' : Forall (fun b => In (fst b) (k :: ks)
                        /\ exists d c,
                            dict_lookup fc (fst b) = Some d
                            /\ lines_found d > 0
                            /\ percentage (lines_hit d) (lines_found d) = Ok c
                            /\ snd b = lines_line d c) blocks).
    { eapply Forall_impl; [|exact Hall]. intros b [Hin Hb]. split; [now right | exact Hb]. }
    unfold uncaught in *. cbn [for_each]. rewrite stdout_bind, snd_bind.
    destruct (report_file_cases fc k) as [(e & E)|[(E & Hle)|(d & c & Hd & Hpos & Hc & E)]];
      rewrite E; cbn [stdout fst snd app].
    + exists []. repeat split; try constructor. intros H; discriminate H.
    + exists blocks. repeat split; auto.
      intros Hok p d [<-|Hin] Hd Hpos.
      * specialize (Hle d Hd). lia.
      * now apply (Hcomplete Hok p d).
    + exists ((k, lines_line d c) :: blocks). repeat split.
      * cbn [flat_map block_lines fst snd app]. now rewrite Hout.
      * cbn [map fst]. constructor; [exact Hsorted|].
        apply Forall_forall. intros q Hq.
        apply in_map_iff in Hq. destruct Hq as (b & <- & Hb).
        rewrite Forall_forall in Hall, Hk.
        apply Hk. now apply Hall.
      * constructor; [|exact Hall'].
        split; [now left|]. exists d, c. auto.
      * intros Hok p d' [<-|Hin] Hd' Hpos'; [now left|].
        right. now apply (Hcomplete Hok p d').
Qed.

(** ** The report as a whole *)

Lemma report_shape (fc : dict file_data) :
  exists tail,
    stdout (report fc)
    = (title :: separator
         :: stdout (for_each (sorted (keys fc)) (report_file fc)) ++ tail)%list
    /\ (uncaught (report fc) = None ->
        uncaught (for_each (sorted (keys fc)) (report_file fc)) = None)
    /\ ((tail = []
         /\ uncaught (for_each (sorted (keys fc)) (report_file fc)) <> None)
        \/ (tail = [separator] /\ total_lines_found fc > 0
            /\ uncaught (report fc) <> None)
        \/ (tail = [separator; "No coverage data found"]
            /\ total_lines_found fc <= 0 /\ uncaught (report fc) = None)
        \/ (exists c,
               tail = [separator;
                       total_line (total_lines_hit fc) (total_lines_found fc) c]
               /\ total_lines_found fc > 0
               /\ percentage (total_lines_hit fc) (total_lines_found fc) = Ok c
               /\ uncaught (report fc) = None)).
Proof.
  unfold report, uncaught, stdout.
  destruct (for_each (sorted (keys fc)) (report_file fc)) as [out [[]|e]].
  - destruct (total_lines_found fc >? 0) eqn:Hpos.
    + apply Z.gtb_lt in Hpos.
      destruct (percentage (total_lines_hit fc) (total_lines_found fc))
        as [c|e] eqn:Hc.
      * eexists. split; [reflexivity|]. split; [reflexivity|].
        right; right; right. exists c. repeat split; auto; lia.
      * exists [separator]. split; [reflexivity|]. split; [reflexivity|].
        right; left. repeat split; try lia. discriminate.
    + rewrite Z.gtb_ltb in Hpos. apply Z.ltb_ge in Hpos.
      eexists. split; [reflexivity|]. split; [reflexivity|].
      right; right; left. repeat split. lia.
  - exists []. split; [cbn; now rewrite app_nil_r|].
    split; [intros H; discriminate H|].
    left. split; [reflexivity | discriminate].
Qed.

Lemma report_blocks (fc : dict file_data) :
  exists blocks tail,
    stdout (report fc)
    = (title :: separator :: flat_map block_lines blocks ++ tail)%list
    /\ StronglySorted le_str (map fst blocks)
    /\ Forall (fun b => exists d c,
                   dict_lookup fc (fst b) = Some d
                   /\ lines_found d > 0
                   /\ percentage (lines_hit d) (lines_found d) = Ok c
                   /\ snd b = lines_line d c) blocks
    /\ (tail = [] \/ tail = [separator]
        \/ tail = [separator; "No coverage data found"]
        \/ exists c,
             tail = [separator;
                     total_line (total_lines_hit fc) (total_lines_found fc) c])
    /\ (uncaught (report fc) = None ->
        (forall p d, In p (keys fc) -> dict_lookup fc p = Some d ->
                     lines_found d > 0 -> In p (map fst blocks))
        /\ (total_lines_found fc > 0 ->
            exists c,
              tail = [separator;
                      total_line (total_lines_hit fc) (total_lines_found fc) c])
        /\ (total_lines_found fc <= 0 ->
            tail = [separator; "No coverage data found"])).
Proof.
  destruct (listing_blocks fc (sorted (keys fc)) (sorted_sorted _))
    as (blocks & Hout & Hsorted & Hall & Hcomplete).
  destruct (report_shape fc) as (tail & Hshape & Hloop & Htail).
  exists blocks, tail. rewrite <- Hout. split; [exact Hshape|].
  split; [exact Hsorted|]. split.
  { eapply Forall_impl; [|exact Hall]. now intros b [_ Hb]. }
  split.
  { destruct Htail as [[-> _]|[[-> _]|[[-> _]|(c & -> & _)]]]; eauto. }
  intros Hok. split.
  { intros p d Hin. apply (Hcomplete (Hloop Hok)). now apply sorted_In. }
  destruct Htail as [[_ H]|[(_ & _ & H)|[(-> & Hle & _)|(c & -> & Hpos & _)]]];
    try (now elim H; auto).
  - split; [lia | reflexivity].
  - split; [eauto | lia].
Qed.

(** C6: the listing goes through the paths in ascending order, whatever the
    order in which the files were met: the output of every report is the
    title, a separator, then two-line blocks whose paths are sorted, each for
    a file with a positive [lines_found], then the closing lines; when the
    report ends normally every such file has its block.  On an input that has
    [b.py] (5 of 5) before [a.py] (2 of 3), [a.py] is printed first and the
    total line is [Total Coverage: 7/8 lines (87.5%)]. *)
Theorem report_lists_files_sorted :
  (forall fc : dict file_data,
      exists blocks tail,
        stdout (report fc)
        = (title :: separator :: flat_map block_lines blocks ++ tail)%list
        /\ StronglySorted le_str (map fst blocks)
        /\ Forall (fun b => exists d c,
                       dict_lookup fc (fst b) = Some d
                       /\ lines_found d > 0
                       /\ percentage (lines_hit d) (lines_found d) = Ok c
                       /\ snd b = lines_line d c) blocks
        /\ (tail = [] \/ tail = [separator]
            \/ tail = [separator; "No coverage data found"]
            \/ exists c,
                 tail = [separator;
                         total_line (total_lines_hit fc) (total_lines_found fc) c])
        /\ (uncaught (report fc) = None ->
            forall p d, In p (keys fc) -> dict_lookup fc p = Some d ->
                        lines_found d > 0 -> In p (map fst blocks)))
  /\ parse_lines initial_state
       ["SF:b.py"; "DA:1,1"; "DA:2,1"; "DA:3,1"; "DA:4,1"; "DA:5,1";
        "end_of_record";
        "SF:a.py"; "DA:1,1"; "DA:2,0"; "DA:3,1"; "end_of_record"]
     = Ok {| files_coverage :=
               [("b.py", {| lines_found := 5; lines_hit := 5 |});
                ("a.py", {| lines_found := 3; lines_hit := 2 |})];
             current_file := Some "a.py" |}
  /\ main (only_file
             (unlines
                ["SF:b.py"; "DA:1,1"; "DA:2,1"; "DA:3,1"; "DA:4,1"; "DA:5,1";
                 "end_of_record";
                 "SF:a.py"; "DA:1,1"; "DA:2,0"; "DA:3,1"; "end_of_record"]))
     = ([title; separator;
         "a.py"; "  Lines: 2/3 (66.7%)";
         "b.py"; "  Lines: 5/5 (100.0%)";
         separator; "Total Coverage: 7/8 lines (87.5%)"], Ok tt).
Proof.
  split; [|split; reflexivity].
  intros fc.
  destruct (report_blocks fc) as (blocks & tail & H1 & H2 & H3 & H4 & H5).
  exists blocks, tail. repeat split; auto.
  intros Hok. now apply (proj1 (H5 Hok)).
Qed.

Lemma report_lists_files_sorted_witness :
  exists blocks tail,
    stdout (report [("b.py", {| lines_found := 5; lines_hit := 5 |});
                    ("a.py", {| lines_found := 3; lines_hit := 2 |})])
    = (title :: separator :: flat_map block_lines blocks ++ tail)%list
    /\ StronglySorted le_str (map fst blocks)
    /\ In "a.py" (map fst blocks) /\ In "b.py" (map fst blocks).
Proof.
  destruct (proj1 report_lists_files_sorted
              [("b.py", {| lines_found := 5; lines_hit := 5 |});
               ("a.py", {| lines_found := 3; lines_hit := 2 |})])
    as (blocks & tail & H1 & H2 & _ & _ & H5).
  exists blocks, tail. repeat split; auto.
  - apply (H5 eq_refl "a.py" {| lines_found := 3; lines_hit := 2 |});
      [simpl; auto | reflexivity | simpl; lia].
  - apply (H5 eq_refl "b.py" {| lines_found := 5; lines_hit := 5 |});
      [simpl; auto | reflexivity | simpl; lia].
Defined.

(** ** Totals *)

Lemma fold_add_acc (l : list Z) (a : Z) :
  fold_left Z.add l a = a + fold_left Z.add l 0.
Proof.
  revert a. induction l as [|x l IH]; intros a; simpl; [lia|].
  rewrite (IH (a + x)), (IH x). lia.
Qed.

Lemma sum_cons (x : Z) (l : list Z) : sum (x :: l) = x + sum l.
Proof. unfold sum. simpl. apply fold_add_acc. Qed.

Lemma sum_app (l1 l2 : list Z) : sum (l1 ++ l2)%list = sum l1 + sum l2.
Proof.
  induction l1 as [|x l1 IH]; simpl; [reflexivity|].
  rewrite !sum_cons, IH. lia.
Qed.

Lemma total_lines_found_insert (fc1 fc2 : dict file_data) (p : string)
    (d : file_data) :
  total_lines_found (fc1 ++ (p, d) :: fc2)%list
  = total_lines_found (fc1 ++ fc2)%list + lines_found d.
Proof.
  unfold total_lines_found, values.
  rewrite !map_app. simpl. rewrite !sum_app, sum_cons. lia.
Qed.

Lemma total_lines_hit_insert (fc1 fc2 : dict file_data) (p : string)
    (d : file_data) :
  total_lines_hit (fc1 ++ (p, d) :: fc2)%list
  = total_lines_hit (fc1 ++ fc2)%list + lines_hit d.
Proof.
  unfold total_lines_hit, values.
  rewrite !map_app. simpl. rewrite !sum_app, sum_cons. lia.
Qed.

Lemma total_lines_found_all (fc : dict file_data) :
  total_lines_found fc
  = fold_right (fun e acc => lines_found (snd e) + acc) 0 fc.
Proof.
  unfold total_lines_found, values.
  induction fc as [|e fc IH]; simpl; [reflexivity|].
  now rewrite sum_cons, IH.
Qed.

Lemma total_lines_hit_all (fc : dict file_data) :
  total_lines_hit fc
  = fold_right (fun e acc => lines_hit (snd e) + acc) 0 fc.
Proof.
  unfold total_lines_hit, values.
  induction fc as [|e fc IH]; simpl; [reflexivity|].
  now rewrite sum_cons, IH.
Qed.

(** C7: a file entry with [lines_found] equal to 0 gets no block in the
    listing (its iteration of the loop prints nothing, and its path heads no
    block of the report), while the totals, from which the total line is
    made, are sums over all entries: the entry adds its [lines_found] and
    its [lines_hit] to them like any other. *)
Theorem zero_found_files_omitted_but_totalled (fc : dict file_data)
    (p : string) (d : file_data) :
  dict_lookup fc p = Some d ->
  lines_found d = 0 ->
  report_file fc p = io_ret tt
  /\ (exists blocks tail,
        stdout (report fc)
        = (title :: separator :: flat_map block_lines blocks ++ tail)%list
        /\ ~ In p (map fst blocks)
        /\ (uncaught (report fc) = None -> total_lines_found fc > 0 ->
            exists c,
              tail = [separator;
                      total_line (total_lines_hit fc) (total_lines_found fc) c]))
  /\ total_lines_found fc
     = fold_right (fun e acc => lines_found (snd e) + acc) 0 fc
  /\ total_lines_hit fc
     = fold_right (fun e acc => lines_hit (snd e) + acc) 0 fc
  /\ (forall fc1 fc2,
        fc = (fc1 ++ (p, d) :: fc2)%list ->
        total_lines_found fc = total_lines_found (fc1 ++ fc2)%list + lines_found d
        /\ total_lines_hit fc = total_lines_hit (fc1 ++ fc2)%list + lines_hit d).
Proof.
  intros Hd Hzero. split; [|split; [|split; [|split]]];
    [| |apply total_lines_found_all|apply total_lines_hit_all|].
  - unfold report_file, getitem, lift. rewrite Hd. simpl.
    now rewrite Hzero.
  - destruct (report_blocks fc) as (blocks & tail & H1 & _ & H3 & _ & H5).
    exists blocks, tail. split; [exact H1|]. split.
    + intros Hin. apply in_map_iff in Hin. destruct Hin as (b & <- & Hb).
      rewrite Forall_forall in H3.
      destruct (H3 b Hb) as (d' & c & Hd' & Hpos & _).
      rewrite Hd in Hd'. injection Hd' as <-. lia.
    + intros Hok. apply (H5 Hok).
  - intros fc1 fc2 ->. split.
    + apply total_lines_found_insert.
    + apply total_lines_hit_insert.
Qed.

Lemma zero_found_files_omitted_but_totalled_witness :
  report_file [("a.py", {| lines_found := 2; lines_hit := 1 |});
               ("b.py", {| lines_found := 0; lines_hit := 3 |})] "b.py"
    = io_ret tt
  /\ total_lines_hit [("a.py", {| lines_found := 2; lines_hit := 1 |});
                      ("b.py", {| lines_found := 0; lines_hit := 3 |})]
     = total_lines_hit ([("a.py", {| lines_found := 2; lines_hit := 1 |})] ++ [])%list + 3.
Proof.
  destruct (zero_found_files_omitted_but_totalled
              [("a.py", {| lines_found := 2; lines_hit := 1 |});
               ("b.py", {| lines_found := 0; lines_hit := 3 |})]
              "b.py" {| lines_found := 0; lines_hit := 3 |} eq_refl eq_refl)
    as (Hnone & _ & _ & _ & Hsum).
  split; [exact Hnone|].
  apply (Hsum [("a.py", {| lines_found := 2; lines_hit := 1 |})] []).
  reflexivity.
Defined.

(** An omitted file still weighs on the total line: [b.py] has no [LF:] and
    no [DA:] record, only [LH:3]. *)
Example omitted_file_counts_in_total :
  main (only_file (unlines ["SF:a.py"; "DA:1,1"; "DA:2,0"; "SF:b.py"; "LH:3"]))
  = ([title; separator; "a.py"; "  Lines: 1/2 (50.0%)"; separator;
      "Total Coverage: 4/2 lines (200.0%)"], Ok tt).
Proof. reflexivity. Qed.

(** ** Counts that break [lines_hit <= lines_found] *)

(** C8: nothing checks [lines_hit <= lines_found].  The input [SF:a.py],
    [LF:3], [LH:5] yields an entry with 5 lines hit out of 3 found, and the
    script prints it, with 166.7%, and ends normally. *)
Theorem hit_above_found_passes_through :
  exists text st d,
    parse_lines initial_state (readlines text) = Ok st
    /\ dict_lookup (files_coverage st) "a.py" = Some d
    /\ lines_hit d > lines_found d
    /\ main (only_file text)
       = ([title; separator; "a.py"; "  Lines: 5/3 (166.7%)"; separator;
           "Total Coverage: 5/3 lines (166.7%)"], Ok tt)
    /\ exit_status (main (only_file text)) = 0.
Proof.
  exists (unlines ["SF:a.py"; "LF:3"; "LH:5"]),
    {| files_coverage := [("a.py", {| lines_found := 3; lines_hit := 5 |})];
       current_file := Some "a.py" |},
    {| lines_found := 3; lines_hit := 5 |}.
  repeat split; reflexivity.
Qed.

(** ** A negative [LF:] value *)

(** C10: [int()] accepts a sign, so [LF:-5] makes [lines_found] negative.
    The file is left out of the listing, its count is added to the total, and
    on the input below the script lists [a.py] with 100.0% and then prints
    [No coverage data found], since the total of lines found is -4. *)
Theorem negative_LF_hides_total :
  int "-5" = Ok (-5)
  /\ parse_lines initial_state
       (readlines (unlines ["SF:a.py"; "DA:1,1"; "SF:b.py"; "LF:-5"]))
     = Ok {| files_coverage :=
               [("a.py", {| lines_found := 1; lines_hit := 1 |});
                ("b.py", {| lines_found := -5; lines_hit := 0 |})];
             current_file := Some "b.py" |}
  /\ report_file [("a.py", {| lines_found := 1; lines_hit := 1 |});
                  ("b.py", {| lines_found := -5; lines_hit := 0 |})] "b.py"
     = io_ret tt
  /\ total_lines_found [("a.py", {| lines_found := 1; lines_hit := 1 |});
                        ("b.py", {| lines_found := -5; lines_hit := 0 |})] = -4
  /\ main (only_file (unlines ["SF:a.py"; "DA:1,1"; "SF:b.py"; "LF:-5"]))
     = ([title; separator; "a.py"; "  Lines: 1/1 (100.0%)"; separator;
         "No coverage data found"], Ok tt).
Proof. repeat split; reflexivity. Qed.

(** In general a file with a negative [lines_found] prints nothing, and a
    report whose total of lines found is not positive ends, when it ends
    normally, with [No coverage data found]. *)
Lemma negative_found_file_omitted (fc : dict file_data) (p : string)
    (d : file_data) :
  dict_lookup fc p = Some d -> lines_found d < 0 -> report_file fc p = io_ret tt.
Proof.
  intros Hd Hneg. unfold report_file, getitem, lift. rewrite Hd. simpl.
  assert (H : (lines_found d >? 0) = false)
    by (rewrite Z.gtb_ltb; apply Z.ltb_ge; lia).
  now rewrite H.
Qed.

Lemma nonpositive_total_reports_no_data (fc : dict file_data) :
  total_lines_found fc <= 0 -> uncaught (report fc) = None ->
  exists listing,
    stdout (report fc)
    = (title :: separator :: listing ++ [separator; "No coverage data found"])%list.
Proof.
  intros Hle Hok.
  destruct (report_blocks fc) as (blocks & tail & H1 & _ & _ & _ & H5).
  destruct (H5 Hok) as (_ & _ & Htail).
  exists (flat_map block_lines blocks). now rewrite H1, (Htail Hle).
Qed.

(** ** Further facts about the parser and the report *)

Lemma keys_setitem {V : Type} (d : dict V) (k : string) (v : V) :
  keys (setitem d k v)
  = match dict_lookup d k with
    | Some _ => keys d
    | None => (keys d ++ [k])%list
    end.
Proof.
  induction d as [|[k' v'] d IH]; simpl; [reflexivity|].
  destruct (String.eqb k' k); simpl; [reflexivity|].
  rewrite IH. now destruct (dict_lookup d k).
Qed.

Lemma dict_lookup_None {V : Type} (d : dict V) (k : string) :
  dict_lookup d k = None -> ~ In k (keys d).
Proof.
  induction d as [|[k' v'] d IH]; simpl; [tauto|].
  destruct (String.eqb_spec k' k) as [->|Hne]; [discriminate|].
  intros H [E|Hin]; [contradiction | now apply IH].
Qed.

Lemma dict_lookup_In {V : Type} (d : dict V) (k : string) (v : V) :
  dict_lookup d k = Some v -> In k (keys d).
Proof.
  induction d as [|[k' v'] d IH]; simpl; [discriminate|].
  destruct (String.eqb_spec k' k) as [->|Hne]; [now left|].
  intros H. right. now apply IH.
Qed.

Lemma NoDup_keys_setitem {V : Type} (d : dict V) (k : string) (v : V) :
  NoDup (keys d) -> NoDup (keys (setitem d k v)).
Proof.
  intros H. rewrite keys_setitem.
  destruct (dict_lookup d k) eqn:E; [exact H|].
  apply NoDup_app; [exact H | repeat constructor; intros [] |].
  intros a Ha [<-|[]]. now apply (dict_lookup_None d k E).
Qed.

Lemma update_keys (fc fc' : dict file_data) (k : option string)
    (f : file_data -> file_data) :
  update fc k f = Ok fc' -> keys fc' = keys fc.
Proof.
  unfold update, getitem. destruct k as [s|]; [|discriminate].
  destruct (dict_lookup fc s) as [v|] eqn:E; [|discriminate].
  simpl. intros [= <-]. now rewrite keys_setitem, E.
Qed.

Lemma update_other (fc fc' : dict file_data) (k : option string)
    (f : file_data -> file_data) (q : string) :
  update fc k f = Ok fc' -> k <> Some q -> dict_lookup fc' q = dict_lookup fc q.
Proof.
  unfold update, getitem. destruct k as [s|]; [|discriminate].
  destruct (dict_lookup fc s) as [v|]; [|discriminate].
  simpl. intros [= <-] Hne. apply dict_lookup_setitem_other. congruence.
Qed.

(** What one line can change: the keys stay the same, except that an [SF:]
    line may add its path at the end; and the entry of a path other than the
    one the line works on is left as it was. *)
Lemma process_line_frame (st st' : parser_state) (raw : string) :
  process_line st raw = Ok st' ->
  (classify raw = RecSF ->
   current_file st' = Some (payload raw)
   /\ keys (files_coverage st')
      = keys (setitem (files_coverage st) (payload raw)
                      {| lines_found := 0; lines_hit := 0 |})
   /\ forall q, q <> payload raw ->
                dict_lookup (files_coverage st') q
                = dict_lookup (files_coverage st) q)
  /\ (classify raw <> RecSF ->
      current_file st' = current_file st
      /\ keys (files_coverage st') = keys (files_coverage st)
      /\ forall q, current_file st <> Some q ->
                   dict_lookup (files_coverage st') q
                   = dict_lookup (files_coverage st) q).
Proof.
  intros Hok. split.
  - intros K. rewrite (process_line_SF st raw K) in Hok.
    injection Hok as <-. simpl. repeat split.
    intros q Hq. apply dict_lookup_setitem_other. congruence.
  - intros HSF. destruct (classify raw) eqn:K; try (now elim HSF).
    + rewrite (process_line_DA st raw K) in Hok.
      destruct (2 <=? List.length (da_parts raw))%nat;
        [|injection Hok as <-; auto].
      destruct (int (nth 1 (da_parts raw) "")) as [k|e]; [|discriminate Hok].
      simpl in Hok.
      destruct (update (files_coverage st) (current_file st) incr_lines_found)
        as [fc1|e] eqn:U1; [|discriminate Hok].
      simpl in Hok. destruct (k >? 0).
      * destruct (update fc1 (current_file st) incr_lines_hit)
          as [fc2|e] eqn:U2; [|discriminate Hok].
        injection Hok as <-. simpl. repeat split.
        -- now rewrite (update_keys _ _ _ _ U2), (update_keys _ _ _ _ U1).
        -- intros q Hq.
           now rewrite (update_other _ _ _ _ q U2 Hq), (update_other _ _ _ _ q U1 Hq).
      * injection Hok as <-. simpl. repeat split.
        -- apply (update_keys _ _ _ _ U1).
        -- intros q Hq. apply (update_other _ _ _ _ q U1 Hq).
    + rewrite (process_line_LF st raw K) in Hok.
      destruct (int (payload raw)) as [n|e]; [|discriminate Hok].
      simpl in Hok.
      destruct (update (files_coverage st) (current_file st) (set_lines_found n))
        as [fc1|e] eqn:U1; [|discriminate Hok].
      injection Hok as <-. simpl. repeat split.
      * apply (update_keys _ _ _ _ U1).
      * intros q Hq. apply (update_other _ _ _ _ q U1 Hq).
    + rewrite (process_line_LH st raw K) in Hok.
      destruct (int (payload raw)) as [n|e]; [|discriminate Hok].
      simpl in Hok.
      destruct (update (files_coverage st) (current_file st) (set_lines_hit n))
        as [fc1|e] eqn:U1; [|discriminate Hok].
      injection Hok as <-. simpl. repeat split.
      * apply (update_keys _ _ _ _ U1).
      * intros q Hq. apply (update_other _ _ _ _ q U1 Hq).
    + rewrite (process_line_Other st raw K) in Hok.
      injection Hok as <-. auto.
Qed.

(** X1: every path is a key once, in every state the loop reaches, and no
    entry is ever removed. *)
Theorem paths_are_unique_keys (lines : list string) (st st' : parser_state) :
  NoDup (keys (files_coverage st)) ->
  parse_lines st lines = Ok st' ->
  NoDup (keys (files_coverage st'))
  /\ incl (keys (files_coverage st)) (keys (files_coverage st')).
Proof.
  revert st. induction lines as [|l lines IH]; intros st Hnd Hok.
  - injection Hok as <-. split; [exact Hnd | apply incl_refl].
  - simpl in Hok. destruct (process_line st l) as [st1|e] eqn:E; [|discriminate Hok].
    simpl in Hok.
    destruct (process_line_frame st st1 l E) as [HSF Hother].
    assert (H1 : NoDup (keys (files_coverage st1))
                 /\ incl (keys (files_coverage st)) (keys (files_coverage st1))).
    { destruct (classify l) eqn:K;
        try (destruct (Hother ltac:(discriminate)) as (_ & -> & _);
             split; [exact Hnd | apply incl_refl]).
      destruct (HSF eq_refl) as (_ & -> & _). split.
      - now apply NoDup_keys_setitem.
      - rewrite keys_setitem. destruct (dict_lookup (files_coverage st) (payload l));
          [apply incl_refl | apply incl_appl, incl_refl]. }
    destruct H1 as [Hnd1 Hincl1].
    destruct (IH st1 Hnd1 Hok) as [Hnd' Hincl'].
    split; [exact Hnd'|]. eapply incl_tran; eauto.
Qed.

Lemma paths_are_unique_keys_witness :
  NoDup (keys [("a.py", {| lines_found := 1; lines_hit := 1 |})])
  /\ incl (keys (files_coverage initial_state))
          (keys [("a.py", {| lines_found := 1; lines_hit := 1 |})]).
Proof.
  apply (paths_are_unique_keys ["SF:a.py"; "DA:1,0"; "SF:a.py"; "DA:9,3"]
           initial_state
           {| files_coverage := [("a.py", {| lines_found := 1; lines_hit := 1 |})];
              current_file := Some "a.py" |}).
  - constructor.
  - reflexivity.
Defined.

(** X2: a line touches no entry but the one it works on: the path an [SF:]
    line names, or the current file for every other line. *)
Theorem other_entries_untouched (st st' : parser_state) (raw q : string) :
  process_line st raw = Ok st' ->
  match classify raw with
  | RecSF => q <> payload raw
  | _ => current_file st <> Some q
  end ->
  dict_lookup (files_coverage st') q = dict_lookup (files_coverage st) q.
Proof.
  intros Hok Hq.
  destruct (process_line_frame st st' raw Hok) as [HSF Hother].
  destruct (classify raw) eqn:K;
    try (destruct (Hother ltac:(discriminate)) as (_ & _ & H); now apply H).
  destruct (HSF eq_refl) as (_ & _ & H). now apply H.
Qed.

Lemma other_entries_untouched_witness :
  dict_lookup [("a.py", {| lines_found := 4; lines_hit := 2 |});
               ("b.py", {| lines_found := 7; lines_hit := 0 |})] "a.py"
  = dict_lookup [("a.py", {| lines_found := 4; lines_hit := 2 |});
                 ("b.py", {| lines_found := 0; lines_hit := 0 |})] "a.py".
Proof.
  apply (other_entries_untouched
           {| files_coverage := [("a.py", {| lines_found := 4; lines_hit := 2 |});
                                 ("b.py", {| lines_found := 0; lines_hit := 0 |})];
              current_file := Some "b.py" |}
           {| files_coverage := [("a.py", {| lines_found := 4; lines_hit := 2 |});
                                 ("b.py", {| lines_found := 7; lines_hit := 0 |})];
              current_file := Some "b.py" |}
           "LF:7" "a.py").
  - reflexivity.
  - simpl. discriminate.
Defined.

Lemma parse_ignored_lines (lines : list string) (st : parser_state) :
  Forall (fun l => classify l = RecOther) lines -> parse_lines st lines = Ok st.
Proof.
  induction 1 as [|l lines Hl _ IH]; simpl; [reflexivity|].
  now rewrite (process_line_Other st l Hl).
Qed.

(** X3: a file with no record at all (no line, or only lines without one of
    the four prefixes) gives the title, the two separators and
    [No coverage data found]. *)
Theorem empty_report (fs : filesystem) (name text : string) :
  fs name = Text text ->
  Forall (fun l => classify l = RecOther) (readlines text) ->
  analyze_lcov_file fs name
  = ([title; separator; separator; "No coverage data found"], Ok tt).
Proof.
  intros Hfs Hall.
  rewrite (analyze_parse_ok fs name text initial_state Hfs).
  - reflexivity.
  - now apply parse_ignored_lines.
Qed.

Lemma empty_report_witness :
  analyze_lcov_file (only_file (unlines ["TN:"; ""; "end_of_record"]))
    "coverage/lcov.info"
  = ([title; separator; separator; "No coverage data found"], Ok tt).
Proof.
  apply (empty_report (only_file (unlines ["TN:"; ""; "end_of_record"]))
           "coverage/lcov.info" (unlines ["TN:"; ""; "end_of_record"])).
  - reflexivity.
  - repeat constructor.
Defined.

(** Scenario D of the specification: [LF:] and [LH:] alone, with no [DA:]
    line. *)
Theorem scenario_D :
  main (only_file (unlines ["SF:c.py"; "LF:10"; "LH:4"]))
  = ([title; separator; "c.py"; "  Lines: 4/10 (40.0%)"; separator;
      "Total Coverage: 4/10 lines (40.0%)"], Ok tt).
Proof. reflexivity. Qed.

(** ** Which exceptions a run can end on *)

Lemma consistent_initial : consistent initial_state.
Proof. exact I. Qed.

Lemma still_consistent (st st' : parser_state) (raw : string) :
  consistent st -> process_line st raw = Ok st' -> classify raw <> RecSF ->
  consistent st'.
Proof.
  unfold consistent. intros Hst Hok HSF.
  destruct (current_file st) as [p|] eqn:Hcf.
  - destruct (dict_lookup (files_coverage st) p) as [d|] eqn:E; [|now elim Hst].
    destruct (process_line_entry st p d Hcf E raw st' HSF Hok) as [Hcf' H].
    rewrite Hcf', H. discriminate.
  - rewrite (skipped_without_file st Hcf raw st' HSF Hok), Hcf. exact I.
Qed.

Lemma process_line_consistent (st st' : parser_state) (raw : string) :
  consistent st -> process_line st raw = Ok st' -> consistent st'.
Proof.
  unfold consistent. intros Hst Hok.
  destruct (classify raw) eqn:K.
  - rewrite (process_line_SF st raw K) in Hok. injection Hok as <-. simpl.
    now rewrite dict_lookup_setitem_same.
  - apply (still_consistent st st' raw Hst Hok). rewrite K. discriminate.
  - apply (still_consistent st st' raw Hst Hok). rewrite K. discriminate.
  - apply (still_consistent st st' raw Hst Hok). rewrite K. discriminate.
  - apply (still_consistent st st' raw Hst Hok). rewrite K. discriminate.
Qed.

Lemma rejected_field_raises (st : parser_state) (raw fld : string) :
  numeric_field raw = Some fld -> parse_int fld = None ->
  process_line st raw = Raise (ValueError fld).
Proof.
  intros Hnum Hint.
  assert (Hraise : int fld = Raise (ValueError fld))
    by (unfold int; now rewrite Hint).
  unfold numeric_field in Hnum.
  destruct (classify raw) eqn:K; try discriminate Hnum.
  - rewrite (process_line_DA st raw K).
    destruct (2 <=? List.length (da_parts raw))%nat; [|discriminate Hnum].
    injection Hnum as ->. now rewrite Hraise.
  - rewrite (process_line_LF st raw K). injection Hnum as ->. now rewrite Hraise.
  - rewrite (process_line_LH st raw K). injection Hnum as ->. now rewrite Hraise.
Qed.

(** With a consistent state a line either goes through, or raises the
    [ValueError] of its numeric field, or, when no file is open, raises
    [KeyError: None]. *)
Lemma process_line_outcome (st : parser_state) (raw : string) :
  consistent st ->
  match numeric_field raw with
  | None => exists st', process_line st raw = Ok st'
  | Some fld =>
      match parse_int fld with
      | None => process_line st raw = Raise (ValueError fld)
      | Some _ =>
          if has_file st then exists st', process_line st raw = Ok st'
          else process_line st raw = Raise (KeyError None)
      end
  end.
Proof.
  intros Hst. unfold consistent, has_file in *.
  destruct (numeric_field raw) as [fld|] eqn:Hnum.
  - destruct (parse_int fld) as [z|] eqn:Hint.
    + assert (Hz : int fld = Ok z) by (unfold int; now rewrite Hint).
      destruct (current_file st) as [p|] eqn:Hcf.
      * destruct (dict_lookup (files_coverage st) p) as [d|] eqn:E; [|now elim Hst].
        unfold numeric_field in Hnum.
        destruct (classify raw) eqn:K; try discriminate Hnum.
        -- destruct (2 <=? List.length (da_parts raw))%nat eqn:Hlen;
             [|discriminate Hnum].
           injection Hnum as <-. apply Nat.leb_le in Hlen.
           rewrite (counted_DA_step st p d Hcf E raw z K Hlen Hz). eauto.
        -- injection Hnum as <-.
           rewrite (process_line_LF st raw K), Hz, Hcf. simpl.
           rewrite (update_open_file _ p d _ E). simpl. eauto.
        -- injection Hnum as <-.
           rewrite (process_line_LH st raw K), Hz, Hcf. simpl.
           rewrite (update_open_file _ p d _ E). simpl. eauto.
      * destruct (record_without_file_raises st Hcf raw) as (e & He & [->|(s & ->)]).
        { now rewrite Hnum. }
        { exact He. }
        exfalso.
        unfold numeric_field in Hnum.
        destruct (classify raw) eqn:K; try discriminate Hnum.
        -- destruct (2 <=? List.length (da_parts raw))%nat eqn:Hlen;
             [|discriminate Hnum].
           injection Hnum as <-.
           rewrite (process_line_DA st raw K), Hlen, Hz, Hcf in He. discriminate He.
        -- injection Hnum as <-.
           rewrite (process_line_LF st raw K), Hz, Hcf in He. discriminate He.
        -- injection Hnum as <-.
           rewrite (process_line_LH st raw K), Hz, Hcf in He. discriminate He.
    + now apply rejected_field_raises.
  - unfold numeric_field in Hnum.
    destruct (classify raw) eqn:K; try discriminate Hnum.
    + rewrite (process_line_SF st raw K). eauto.
    + destruct (2 <=? List.length (da_parts raw))%nat eqn:Hlen;
        [discriminate Hnum|].
      rewrite (process_line_DA st raw K), Hlen. eauto.
    + rewrite (process_line_Other st raw K). eauto.
Qed.

Lemma has_file_after (st st' : parser_state) (raw : string) :
  process_line st raw = Ok st' ->
  has_file st' = match classify raw with
                 | RecSF => true
                 | _ => has_file st
                 end.
Proof.
  intros Hok. unfold has_file.
  destruct (process_line_frame st st' raw Hok) as [HSF Hother].
  destruct (classify raw);
    try (destruct (Hother ltac:(discriminate)) as (-> & _); reflexivity).
  destruct (HSF eq_refl) as (-> & _). reflexivity.
Qed.

Lemma numeric_field_SF (raw : string) :
  classify raw = RecSF -> numeric_field raw = None.
Proof. unfold numeric_field. now intros ->. Qed.

Lemma parse_lines_acceptable (lines : list string) :
  forall st,
    consistent st ->
    (exists st', parse_lines st lines = Ok st')
    <-> acceptable (has_file st) lines = true.
Proof.
  induction lines as [|l lines IH]; intros st Hst.
  - simpl. split; eauto.
  - pose proof (process_line_outcome st l Hst) as Hout.
    cbn [parse_lines acceptable].
    destruct (numeric_field l) as [fld|] eqn:Hnum.
    + assert (K : classify l <> RecSF).
      { intros K. rewrite (numeric_field_SF l K) in Hnum. discriminate. }
      destruct (parse_int fld) as [z|].
      * destruct (has_file st) eqn:Hf.
        -- destruct Hout as (st1 & E). rewrite E. simpl.
           pose proof (has_file_after st st1 l E) as H1.
           pose proof (process_line_consistent st st1 l Hst E) as Hst1.
           specialize (IH st1 Hst1).
           destruct (classify l); try (now elim K);
             rewrite H1, Hf in IH; exact IH.
        -- rewrite Hout. simpl.
           destruct (classify l); try (now elim K);
             (split; [intros (st' & H); discriminate H | discriminate]).
      * rewrite Hout. simpl. rewrite andb_false_r.
        destruct (classify l); try (now elim K);
          (split; [intros (st' & H); discriminate H | discriminate]).
    + destruct Hout as (st1 & E). rewrite E. simpl.
      pose proof (has_file_after st st1 l E) as H1.
      pose proof (process_line_consistent st st1 l Hst E) as Hst1.
      specialize (IH st1 Hst1). rewrite H1 in IH.
      destruct (classify l); exact IH.
Qed.

(** X4: the loop gets through an input without an exception exactly when
    every numeric field that reaches [int()] (the second field of a [DA:]
    line with two fields or more, the text after [LF:] or [LH:]) is accepted
    by it and stands after some [SF:] line. *)
Theorem parse_accepts_exactly (lines : list string) :
  (exists st, parse_lines initial_state lines = Ok st)
  <-> acceptable false lines = true.
Proof. exact (parse_lines_acceptable lines initial_state consistent_initial). Qed.

Lemma parse_lines_raises (lines : list string) :
  forall st e,
    consistent st ->
    parse_lines st lines = Raise e ->
    e = KeyError None \/ exists s, e = ValueError s.
Proof.
  induction lines as [|l lines IH]; intros st e Hst Hraise; [discriminate Hraise|].
  pose proof (process_line_outcome st l Hst) as Hout.
  simpl in Hraise.
  destruct (process_line st l) as [st1|e1] eqn:E; simpl in Hraise.
  - apply (IH st1 e (process_line_consistent st st1 l Hst E) Hraise).
  - injection Hraise as <-.
    destruct (numeric_field l) as [fld|].
    + destruct (parse_int fld).
      * destruct (has_file st); [destruct Hout as (? & H); discriminate H|].
        injection Hout as ->. now left.
      * injection Hout as ->. right. eauto.
    + destruct Hout as (? & H). discriminate H.
Qed.

Lemma truediv_raises (a b : Z) (e : exception) :
  truediv a b = Raise e ->
  (b = 0 /\ e = ZeroDivisionError) \/ (b <> 0 /\ e = OverflowError).
Proof.
  unfold truediv. destruct (Z.eqb_spec b 0) as [->|Hb].
  - intros [= <-]. now left.
  - destruct (SFdiv prec emax (exact a) (exact b)); intros H;
      try discriminate H.
    injection H as <-. now right.
Qed.

Lemma percentage_raises (hit found : Z) (e : exception) :
  found > 0 -> percentage hit found = Raise e -> e = OverflowError.
Proof.
  unfold percentage. intros Hpos.
  destruct (truediv hit found) as [q|e'] eqn:E; simpl; intros H; [discriminate H|].
  injection H as <-.
  destruct (truediv_raises hit found e' E) as [[Hz _]|[_ He]]; [lia | exact He].
Qed.

Lemma report_file_raises (fc : dict file_data) (p : string) (e : exception) :
  In p (keys fc) -> uncaught (report_file fc p) = Some e -> e = OverflowError.
Proof.
  intros Hin. unfold uncaught.
  destruct (report_file_cases fc p) as [(e' & E)|[(E & _)|(d & c & _ & _ & _ & E)]];
    rewrite E; simpl; intros H; try discriminate H.
  injection H as <-.
  unfold report_file, getitem, lift in E.
  destruct (dict_lookup fc p) as [d|] eqn:Hd.
  - simpl in E. destruct (lines_found d >? 0) eqn:Hpos; [|discriminate E].
    destruct (percentage (lines_hit d) (lines_found d)) as [c|e''] eqn:Hc;
      simpl in E; [discriminate E|].
    injection E as <-.
    apply (percentage_raises (lines_hit d) (lines_found d)); [|exact Hc].
    apply Z.gtb_lt in Hpos. lia.
  - exfalso. now apply (dict_lookup_None fc p Hd).
Qed.

Lemma listing_raises (fc : dict file_data) (ks : list string) (e : exception) :
  incl ks (keys fc) ->
  uncaught (for_each ks (report_file fc)) = Some e -> e = OverflowError.
Proof.
  induction ks as [|k ks IH]; intros Hincl; [discriminate|].
  unfold uncaught in *. cbn [for_each]. rewrite snd_bind.
  destruct (snd (report_file fc k)) as [[]|e'] eqn:E.
  - apply IH. intros q Hq. apply Hincl. now right.
  - intros [= <-]. apply (report_file_raises fc k).
    + apply Hincl. now left.
    + unfold uncaught. now rewrite E.
Qed.

Lemma report_raises (fc : dict file_data) (e : exception) :
  uncaught (report fc) = Some e -> e = OverflowError.
Proof.
  intros H.
  destruct (uncaught (for_each (sorted (keys fc)) (report_file fc)))
    as [e'|] eqn:Hloop.
  - assert (He' : e' = OverflowError).
    { apply (listing_raises fc (sorted (keys fc))); [|exact Hloop].
      intros q Hq. now apply sorted_In. }
    subst e'. revert H Hloop. unfold report, uncaught.
    destruct (for_each (sorted (keys fc)) (report_file fc)) as [out [[]|e']];
      simpl; [discriminate|].
    intros H1 H2. congruence.
  - revert H Hloop. unfold report, uncaught.
    destruct (for_each (sorted (keys fc)) (report_file fc)) as [out [[]|e']];
      simpl; [|discriminate].
    destruct (total_lines_found fc >? 0) eqn:Hpos; simpl; [|discriminate].
    destruct (percentage (total_lines_hit fc) (total_lines_found fc))
      as [c|e'] eqn:Hc; simpl; [discriminate|].
    intros [= <-] _.
    apply (percentage_raises (total_lines_hit fc) (total_lines_found fc) e');
      [|exact Hc].
    apply Z.gtb_lt in Hpos. lia.
Qed.

(** X5: the exceptions a run can end on once the file has been read, for an
    input whose numeric fields and whose counts stay within the
    interpreter's limit on int conversions.  The loop may raise
    [ValueError], or [KeyError: None] for a record before any [SF:] line; in
    both cases nothing has been printed.  Once the report has started (the
    title and the first separator are out) only the [OverflowError] of a
    division can end the run.  A division by zero, and a [KeyError] for an
    actual path, never occur. *)
Theorem exceptions_of_a_run (fs : filesystem) (name text : string)
    (e : exception) :
  fs name = Text text ->
  short_fields (readlines text) = true ->
  (forall st, parse_lines initial_state (readlines text) = Ok st ->
              within_digit_limit (files_coverage st) = true) ->
  uncaught (analyze_lcov_file fs name) = Some e ->
  (parse_lines initial_state (readlines text) = Raise e
   /\ (e = KeyError None \/ exists s, e = ValueError s)
   /\ stdout (analyze_lcov_file fs name) = [])
  \/ (e = OverflowError
      /\ exists st rest,
           parse_lines initial_state (readlines text) = Ok st
           /\ uncaught (report (files_coverage st)) = Some OverflowError
           /\ stdout (analyze_lcov_file fs name) = title :: separator :: rest).
Proof.
  intros Hfs _ _.
  destruct (parse_lines initial_state (readlines text)) as [st|e'] eqn:Hp.
  - rewrite (analyze_parse_ok fs name text st Hfs Hp). intros H.
    assert (He : e = OverflowError)
      by now apply (report_raises (files_coverage st)).
    subst e. right. split; [reflexivity|].
    destruct (report_shape (files_coverage st)) as (tail & -> & _).
    eauto.
  - rewrite (analyze_parse_raises fs name text e' Hfs Hp).
    intros [= <-]. left.
    repeat split; auto.
    apply (parse_lines_raises _ initial_state e' consistent_initial Hp).
Qed.

Lemma exceptions_of_a_run_witness :
  (parse_lines initial_state
     (readlines (unlines ["SF:a.py"; "LF:1"; "LH:1" ++ repeat_char "0" 400]))
   = Raise OverflowError
   /\ (OverflowError = KeyError None \/ exists s, OverflowError = ValueError s)
   /\ stdout (analyze_lcov_file
                (only_file
                   (unlines ["SF:a.py"; "LF:1"; "LH:1" ++ repeat_char "0" 400]))
                "coverage/lcov.info") = [])
  \/ (OverflowError = OverflowError
      /\ exists st rest,
           parse_lines initial_state
             (readlines
                (unlines ["SF:a.py"; "LF:1"; "LH:1" ++ repeat_char "0" 400]))
           = Ok st
           /\ uncaught (report (files_coverage st)) = Some OverflowError
           /\ stdout (analyze_lcov_file
                        (only_file
                           (unlines ["SF:a.py"; "LF:1";
                                     "LH:1" ++ repeat_char "0" 400]))
                        "coverage/lcov.info") = title :: separator :: rest).
Proof.
  apply (exceptions_of_a_run
           (only_file
              (unlines ["SF:a.py"; "LF:1"; "LH:1" ++ repeat_char "0" 400]))
           "coverage/lcov.info"
           (unlines ["SF:a.py"; "LF:1"; "LH:1" ++ repeat_char "0" 400])
           OverflowError).
  - reflexivity.
  - vm_compute. reflexivity.
  - intros st H. vm_compute in H. injection H as <-. vm_compute. reflexivity.
  - vm_compute. reflexivity.
Defined.

(** ** Counts made of [DA:] records only *)

Lemma Forall_setitem {V : Type} (P : V -> Prop) (d : dict V) (k : string) (v : V) :
  Forall (fun e => P (snd e)) d -> P v ->
  Forall (fun e => P (snd e)) (setitem d k v).
Proof.
  intros Hd Hv. induction Hd as [|[k' v'] d Hk Hd IH]; simpl.
  - repeat constructor. exact Hv.
  - destruct (String.eqb k' k); constructor; auto.
Qed.

Lemma Forall_lookup {V : Type} (P : V -> Prop) (d : dict V) (k : string) (v : V) :
  Forall (fun e => P (snd e)) d -> dict_lookup d k = Some v -> P v.
Proof.
  induction 1 as [|[k' v'] d Hk Hd IH]; simpl; [discriminate|].
  destruct (String.eqb k' k); [|exact IH].
  now intros [= <-].
Qed.

Lemma update_inv (fc fc' : dict file_data) (k : option string)
    (f : file_data -> file_data) :
  update fc k f = Ok fc' ->
  exists p d, k = Some p /\ dict_lookup fc p = Some d /\ fc' = setitem fc p (f d).
Proof.
  unfold update, getitem. destruct k as [p|]; [|discriminate].
  destruct (dict_lookup fc p) as [d|] eqn:E; [|discriminate].
  simpl. intros [= <-]. eauto.
Qed.

Lemma process_line_in_range (st st' : parser_state) (raw : string) :
  no_summary raw ->
  Forall (fun e => in_range (snd e)) (files_coverage st) ->
  process_line st raw = Ok st' ->
  Forall (fun e => in_range (snd e)) (files_coverage st').
Proof.
  intros [HLF HLH] Hall Hok.
  destruct (classify raw) eqn:K; try (now elim HLF); try (now elim HLH).
  - rewrite (process_line_SF st raw K) in Hok. injection Hok as <-. simpl.
    apply Forall_setitem; [exact Hall|]. unfold in_range. simpl. lia.
  - rewrite (process_line_DA st raw K) in Hok.
    destruct (2 <=? List.length (da_parts raw))%nat;
      [|injection Hok as <-; exact Hall].
    destruct (int (nth 1 (da_parts raw) "")) as [k|e]; [|discriminate Hok].
    simpl in Hok.
    destruct (update (files_coverage st) (current_file st) incr_lines_found)
      as [fc1|e] eqn:U1; [|discriminate Hok].
    simpl in Hok.
    destruct (update_inv _ _ _ _ U1) as (p & d & Hcf & Hd & ->).
    pose proof (Forall_lookup in_range _ p d Hall Hd) as Hr.
    assert (H1 : Forall (fun e => in_range (snd e))
                   (setitem (files_coverage st) p (incr_lines_found d))).
    { apply Forall_setitem; [exact Hall|].
      unfold in_range in *. simpl. lia. }
    destruct (k >? 0).
    + destruct (update (setitem (files_coverage st) p (incr_lines_found d))
                  (current_file st) incr_lines_hit) as [fc2|e] eqn:U2;
        [|discriminate Hok].
      injection Hok as <-. simpl.
      destruct (update_inv _ _ _ _ U2) as (p' & d' & Hcf' & Hd' & ->).
      assert (p' = p) by congruence. subst p'.
      rewrite dict_lookup_setitem_same in Hd'. injection Hd' as <-.
      apply Forall_setitem; [exact H1|].
      unfold in_range in *. simpl. lia.
    + injection Hok as <-. exact H1.
  - rewrite (process_line_Other st raw K) in Hok. injection Hok as <-. exact Hall.
Qed.

Lemma parse_lines_in_range (lines : list string) :
  forall st st',
    Forall no_summary lines ->
    Forall (fun e => in_range (snd e)) (files_coverage st) ->
    parse_lines st lines = Ok st' ->
    Forall (fun e => in_range (snd e)) (files_coverage st').
Proof.
  induction lines as [|l lines IH]; intros st st' Hlines Hall Hok.
  - now injection Hok as <-.
  - inversion Hlines as [|? ? Hl Hrest]; subst.
    simpl in Hok. destruct (process_line st l) as [st1|e] eqn:E; [|discriminate Hok].
    apply (IH st1 st' Hrest (process_line_in_range st st1 l Hl Hall E) Hok).
Qed.

Lemma totals_in_range (fc : dict file_data) :
  Forall (fun e => in_range (snd e)) fc ->
  0 <= total_lines_hit fc <= total_lines_found fc.
Proof.
  rewrite total_lines_hit_all, total_lines_found_all.
  induction 1 as [|e fc He Hfc IH]; simpl; [lia|].
  unfold in_range in He. lia.
Qed.

(** X6: when the input has no [LF:] and no [LH:] record, every entry of the
    dictionary has [0 <= lines_hit <= lines_found], and so have the totals:
    the counts can leave that range only through [LF:] and [LH:] records. *)
Theorem counts_in_range_without_summaries (lines : list string)
    (st : parser_state) :
  Forall no_summary lines ->
  parse_lines initial_state lines = Ok st ->
  Forall (fun e => in_range (snd e)) (files_coverage st)
  /\ 0 <= total_lines_hit (files_coverage st)
       <= total_lines_found (files_coverage st).
Proof.
  intros Hlines Hok.
  assert (H : Forall (fun e => in_range (snd e)) (files_coverage st)).
  { apply (parse_lines_in_range lines initial_state st Hlines); [constructor | exact Hok]. }
  split; [exact H | now apply totals_in_range].
Qed.

Lemma counts_in_range_without_summaries_witness :
  Forall (fun e => in_range (snd e))
    [("a.py", {| lines_found := 3; lines_hit := 2 |})]
  /\ 0 <= total_lines_hit [("a.py", {| lines_found := 3; lines_hit := 2 |})]
       <= total_lines_found [("a.py", {| lines_found := 3; lines_hit := 2 |})].
Proof.
  apply (counts_in_range_without_summaries
           ["SF:a.py"; "DA:1,4"; "DA:2,0"; "DA:7,1,xyz"; "end_of_record"]
           {| files_coverage := [("a.py", {| lines_found := 3; lines_hit := 2 |})];
              current_file := Some "a.py" |}).
  - repeat constructor; discriminate.
  - reflexivity.
Defined.

(** ** Percentages that stay finite *)

Lemma digits2_pos_size (p : positive) : digits2_pos p = Pos.size p.
Proof. induction p as [p IH|p IH|]; simpl; now rewrite ?IH. Qed.

Lemma Zdigits2_nonneg (m : Z) : 0 <= Zdigits2 m.
Proof. destruct m; simpl; lia. Qed.

Lemma Zdigits2_above (m : Z) : 0 <= m -> m < 2 ^ Zdigits2 m.
Proof.
  destruct m as [|p|p]; intros H; simpl Zdigits2; [reflexivity| |lia].
  rewrite digits2_pos_size.
  pose proof (Pos.size_gt p) as Hp.
  apply Pos2Z.pos_lt_pos in Hp. now rewrite Pos2Z.inj_pow in Hp.
Qed.

Lemma Zdigits2_le (m k : Z) : 0 <= m -> 0 <= k -> m < 2 ^ k -> Zdigits2 m <= k.
Proof.
  destruct m as [|p|p]; intros Hm Hk Hlt; simpl Zdigits2; [lia| |lia].
  rewrite digits2_pos_size.
  pose proof (Pos.size_le p) as Hp.
  apply Pos2Z.pos_le_pos in Hp. rewrite Pos2Z.inj_pow in Hp.
  change (Z.pos p~0) with (2 * Z.pos p) in Hp.
  destruct (Z.le_gt_cases (Z.pos (Pos.size p)) k) as [|Hgt]; [assumption|].
  exfalso.
  assert (2 ^ (k + 1) <= 2 ^ Z.pos (Pos.size p))
    by (apply Z.pow_le_mono_r; lia).
  rewrite Z.pow_add_r, Z.pow_1_r in H by lia. lia.
Qed.

Lemma Zdigits2_succ (m : Z) : 0 <= m -> Zdigits2 (m + 1) <= Zdigits2 m + 1.
Proof.
  intros Hm. pose proof (Zdigits2_above m Hm). pose proof (Zdigits2_nonneg m).
  apply Zdigits2_le; try lia.
  rewrite Z.pow_add_r, Z.pow_1_r by lia. lia.
Qed.

Lemma Zdigits2_mono (m n : Z) : 0 <= m <= n -> Zdigits2 m <= Zdigits2 n.
Proof.
  intros H. pose proof (Zdigits2_above n ltac:(lia)).
  apply Zdigits2_le; try lia. apply Zdigits2_nonneg.
Qed.

Lemma Zdigits2_mul (m n : Z) :
  0 <= m -> 0 <= n -> Zdigits2 (m * n) <= Zdigits2 m + Zdigits2 n.
Proof.
  intros Hm Hn.
  pose proof (Zdigits2_above m Hm). pose proof (Zdigits2_above n Hn).
  pose proof (Zdigits2_nonneg m). pose proof (Zdigits2_nonneg n).
  apply Zdigits2_le; try nia.
  rewrite Z.pow_add_r by lia. nia.
Qed.

Lemma Zdigits2_div_pow2 (m n : Z) :
  0 <= m -> 0 < n -> Zdigits2 (m / 2 ^ n) <= Z.max (Zdigits2 m - n) 0.
Proof.
  intros Hm Hn.
  pose proof (Zdigits2_above m Hm) as Hab. pose proof (Zdigits2_nonneg m) as Hd.
  assert (Hpow : 0 < 2 ^ n) by (apply Z.pow_pos_nonneg; lia).
  destruct (Z.le_gt_cases n (Zdigits2 m)) as [Hle|Hgt].
  - rewrite Z.max_l by lia.
    apply Zdigits2_le; [apply Z.div_pos; lia | lia |].
    apply Z.div_lt_upper_bound; [exact Hpow|].
    rewrite <- Z.pow_add_r by lia.
    now replace (n + (Zdigits2 m - n)) with (Zdigits2 m) by lia.
  - assert (m < 2 ^ n).
    { eapply Z.lt_le_trans; [exact Hab|]. apply Z.pow_le_mono_r; lia. }
    rewrite Z.div_small by lia. simpl. lia.
Qed.

Lemma fexp_eq (e : Z) : fexp prec emax e = Z.max (e - 53) (-1074).
Proof. reflexivity. Qed.

Lemma shr_1_m (mrs : shr_record) :
  0 <= shr_m mrs -> shr_m (shr_1 mrs) = shr_m mrs / 2.
Proof.
  destruct mrs as [m r s]. simpl shr_m at 1 3. intros Hm.
  rewrite <- Z.div2_div.
  destruct m as [|[p|p|]|p]; try reflexivity. lia.
Qed.

Lemma iter_shr_1_m (n : positive) :
  forall mrs,
    0 <= shr_m mrs ->
    shr_m (iter_pos shr_1 n mrs) = shr_m mrs / 2 ^ Zpos n.
Proof.
  induction n as [n IH|n IH|]; intros mrs Hm; cbn [iter_pos].
  - assert (H1 : 0 <= shr_m (shr_1 mrs))
      by (rewrite shr_1_m by lia; apply Z.div_pos; lia).
    assert (Hp : 0 < 2 ^ Zpos n) by (apply Z.pow_pos_nonneg; lia).
    assert (H2 : 0 <= shr_m (iter_pos shr_1 n (shr_1 mrs)))
      by (rewrite IH by lia; apply Z.div_pos; lia).
    rewrite IH, IH, shr_1_m by lia.
    rewrite !Z.div_div by lia.
    f_equal. replace (Z.pos n~1) with (1 + Z.pos n + Z.pos n) by lia.
    rewrite !Z.pow_add_r, Z.pow_1_r by lia. lia.
  - assert (Hp : 0 < 2 ^ Zpos n) by (apply Z.pow_pos_nonneg; lia).
    assert (H2 : 0 <= shr_m (iter_pos shr_1 n mrs))
      by (rewrite IH by lia; apply Z.div_pos; lia).
    rewrite IH, IH by lia.
    rewrite Z.div_div by lia.
    f_equal. replace (Z.pos n~0) with (Z.pos n + Z.pos n) by lia.
    rewrite Z.pow_add_r by lia. lia.
  - rewrite shr_1_m by lia. now rewrite Z.pow_1_r.
Qed.

Lemma shr_record_of_loc_m (m : Z) (l : location) :
  shr_m (shr_record_of_loc m l) = m.
Proof. destruct l as [|[]]; reflexivity. Qed.

Lemma round_nearest_even_bounds (m : Z) (l : location) :
  m <= round_nearest_even m l <= m + 1.
Proof.
  unfold round_nearest_even.
  destruct l as [|[]]; try lia. destruct (Z.even m); lia.
Qed.

(** One step of the rounding: the significand is kept, or shifted right to
    the exponent [fexp] asks for. *)
Lemma shr_fexp_bounds (m e B E : Z) (l : location) :
  0 <= m -> Zdigits2 m + e <= B -> e <= E ->
  0 <= shr_m (fst (shr_fexp prec emax m e l))
  /\ Zdigits2 (shr_m (fst (shr_fexp prec emax m e l)))
     + snd (shr_fexp prec emax m e l) <= Z.max B (-1074)
  /\ snd (shr_fexp prec emax m e l) <= Z.max E (Z.max (B - 53) (-1074)).
Proof.
  intros Hm HB HE. unfold shr_fexp, shr. rewrite fexp_eq.
  destruct (Z.max (Zdigits2 m + e - 53) (-1074) - e) as [|n|n] eqn:Hn;
    cbn [fst snd]; rewrite ?shr_record_of_loc_m; try lia.
  rewrite iter_shr_1_m by (rewrite shr_record_of_loc_m; lia).
  rewrite shr_record_of_loc_m.
  pose proof (Zdigits2_div_pow2 m (Z.pos n) Hm ltac:(lia)) as Hd.
  split; [apply Z.div_pos; [lia | apply Z.pow_pos_nonneg; lia]|].
  lia.
Qed.

(** Rounding a significand of moderate size never gives an infinity. *)
Lemma binary_round_aux_finite (sx : bool) (mx ex : Z) (lx : location) (B E : Z) :
  0 <= mx -> Zdigits2 mx + ex <= B -> ex <= E -> B <= 1023 -> E <= 971 ->
  match binary_round_aux prec emax sx mx ex lx with
  | S754_zero _ => True
  | S754_finite _ m e =>
      Zdigits2 (Zpos m) + e <= Z.max B (-1074) + 1
      /\ e <= Z.max E (Z.max (B - 52) (-1074))
  | S754_infinity _ | S754_nan => False
  end.
Proof.
  intros Hm HB HE HB' HE'. unfold binary_round_aux.
  pose proof (shr_fexp_bounds mx ex B E lx Hm HB HE) as (H0 & HD & He).
  destruct (shr_fexp prec emax mx ex lx) as [mrs1 e1]. cbn [fst snd] in *.
  pose proof (round_nearest_even_bounds (shr_m mrs1) (loc_of_shr_record mrs1))
    as Hr.
  set (m1 := round_nearest_even (shr_m mrs1) (loc_of_shr_record mrs1)) in *.
  assert (Hd1 : Zdigits2 m1 <= Zdigits2 (shr_m mrs1) + 1).
  { etransitivity; [apply (Zdigits2_mono m1 (shr_m mrs1 + 1)); lia|].
    now apply Zdigits2_succ. }
  pose proof (shr_fexp_bounds m1 e1 (Z.max B (-1074) + 1)
                (Z.max E (Z.max (B - 53) (-1074))) loc_Exact
                ltac:(lia) ltac:(lia) ltac:(lia)) as (H0' & HD' & He').
  destruct (shr_fexp prec emax m1 e1 loc_Exact) as [mrs2 e2]. cbn [fst snd] in *.
  destruct (shr_m mrs2) as [|m|m]; [exact I| |lia].
  change (emax - prec) with 971.
  destruct (Z.leb_spec e2 971); [split; lia | lia].
Qed.

(** The quotient and exponent the division hands to the rounding. *)
Lemma SFdiv_core_bounds (a b : positive) (K : Z) :
  0 <= K -> Zpos a <= Zpos b * 2 ^ K ->
  0 <= fst (fst (SFdiv_core_binary prec emax (Zpos a) 0 (Zpos b) 0))
  /\ Zdigits2 (fst (fst (SFdiv_core_binary prec emax (Zpos a) 0 (Zpos b) 0)))
     + snd (fst (SFdiv_core_binary prec emax (Zpos a) 0 (Zpos b) 0)) <= K + 1
  /\ snd (fst (SFdiv_core_binary prec emax (Zpos a) 0 (Zpos b) 0)) <= 0.
Proof.
  intros HK Hab. unfold SFdiv_core_binary.
  set (e' := Z.min (fexp prec emax (Zdigits2 (Z.pos a) + 0 - (Zdigits2 (Z.pos b) + 0)))
                   (0 - 0)).
  assert (He' : e' <= 0) by (unfold e'; lia).
  set (m' := match 0 - 0 - e' with
             | 0 => Z.pos a
             | Z.pos _ => Z.shiftl (Z.pos a) (0 - 0 - e')
             | Z.neg _ => 0
             end).
  assert (Hm' : m' = Zpos a * 2 ^ (- e')).
  { unfold m'. replace (0 - 0 - e') with (- e') by lia.
    destruct (- e') as [|s|s] eqn:Hs; [simpl; lia| |lia].
    now rewrite Z.shiftl_mul_pow2 by lia. }
  pose proof (Z.pow_pos_nonneg 2 (- e') ltac:(lia) ltac:(lia)) as Hpow.
  pose proof (Z.pow_pos_nonneg 2 K ltac:(lia) ltac:(lia)) as HpowK.
  assert (Hq : Z.div_eucl m' (Z.pos b) = (m' / Z.pos b, m' mod Z.pos b)).
  { unfold Z.div, Z.modulo. now destruct (Z.div_eucl m' (Z.pos b)). }
  rewrite Hq. cbn [fst snd].
  assert (Hq0 : 0 <= m' / Z.pos b) by (apply Z.div_pos; nia).
  assert (Hqle : m' / Z.pos b <= 2 ^ (K + - e')).
  { apply Z.div_le_upper_bound; [lia|].
    rewrite Hm', Z.pow_add_r by lia. nia. }
  split; [exact Hq0|]. split; [|exact He'].
  assert (Zdigits2 (m' / Z.pos b) <= K + - e' + 1); [|lia].
  apply Zdigits2_le; try lia.
  rewrite Z.pow_add_r, Z.pow_1_r by lia. lia.
Qed.

Lemma SFdiv_exact_finite (sa sb : bool) (a b : positive) (K : Z) :
  0 <= K <= 1000 -> Zpos a <= Zpos b * 2 ^ K ->
  match SFdiv prec emax (S754_finite sa a 0) (S754_finite sb b 0) with
  | S754_zero _ => True
  | S754_finite _ m e => Zdigits2 (Zpos m) + e <= K + 2 /\ e <= Z.max 0 (K - 51)
  | S754_infinity _ | S754_nan => False
  end.
Proof.
  intros HK Hab. unfold SFdiv.
  pose proof (SFdiv_core_bounds a b K ltac:(lia) Hab) as (Hq & HD & He).
  destruct (SFdiv_core_binary prec emax (Z.pos a) 0 (Z.pos b) 0) as [[q e] l].
  cbn [fst snd] in *.
  pose proof (binary_round_aux_finite (xorb sa sb) q e l (K + 1) 0
                Hq HD He ltac:(lia) ltac:(lia)) as H.
  destruct (binary_round_aux prec emax (xorb sa sb) q e l); auto.
  lia.
Qed.

(** [a / b] raises nothing and is finite when [|a| <= |b| * 2^K]. *)
Lemma truediv_finite (a b K : Z) :
  b <> 0 -> 0 <= K <= 1000 -> Z.abs a <= Z.abs b * 2 ^ K ->
  exists x,
    truediv a b = Ok x
    /\ match x with
       | S754_zero _ => True
       | S754_finite _ m e =>
           Zdigits2 (Zpos m) + e <= K + 2 /\ e <= Z.max 0 (K - 51)
       | S754_infinity _ | S754_nan => False
       end.
Proof.
  intros Hb HK Hab. unfold truediv.
  destruct (Z.eqb_spec b 0) as [|_]; [contradiction|].
  destruct a as [|a|a]; destruct b as [|b|b]; try contradiction; cbn [exact];
    try (eexists; split; [reflexivity | exact I]).
  - pose proof (SFdiv_exact_finite false false a b K HK Hab) as H.
    destruct (SFdiv prec emax (S754_finite false a 0) (S754_finite false b 0));
      try contradiction; eexists; (split; [reflexivity | exact H]).
  - pose proof (SFdiv_exact_finite false true a b K HK Hab) as H.
    destruct (SFdiv prec emax (S754_finite false a 0) (S754_finite true b 0));
      try contradiction; eexists; (split; [reflexivity | exact H]).
  - pose proof (SFdiv_exact_finite true false a b K HK Hab) as H.
    destruct (SFdiv prec emax (S754_finite true a 0) (S754_finite false b 0));
      try contradiction; eexists; (split; [reflexivity | exact H]).
  - pose proof (SFdiv_exact_finite true true a b K HK Hab) as H.
    destruct (SFdiv prec emax (S754_finite true a 0) (S754_finite true b 0));
      try contradiction; eexists; (split; [reflexivity | exact H]).
Qed.

Lemma times_100_finite (x : float) (K : Z) :
  0 <= K <= 1000 ->
  match x with
  | S754_zero _ => True
  | S754_finite _ m e => Zdigits2 (Zpos m) + e <= K + 2 /\ e <= Z.max 0 (K - 51)
  | S754_infinity _ | S754_nan => False
  end ->
  is_finite (fmul x (float_of_int 100)) = true.
Proof.
  intros HK Hx.
  change (float_of_int 100) with (S754_finite false 7036874417766400 (-46)).
  destruct x as [s| | |s m e]; try contradiction; [reflexivity|].
  destruct Hx as [HD He]. unfold fmul, SFmul.
  assert (Hd : Zdigits2 (Z.pos (m * 7036874417766400)) + (e + -46) <= K + 9).
  { rewrite Pos2Z.inj_mul.
    pose proof (Zdigits2_mul (Z.pos m) 7036874417766400 ltac:(lia) ltac:(lia)) as H.
    change (Zdigits2 7036874417766400) with 53 in H. lia. }
  pose proof (binary_round_aux_finite (xorb s false)
                (Z.pos (m * 7036874417766400)) (e + -46) loc_Exact
                (K + 9) (Z.max 0 (K - 51) - 46)
                ltac:(lia) Hd ltac:(lia) ltac:(lia) ltac:(lia)) as H.
  destruct (binary_round_aux prec emax (xorb s false)
              (Z.pos (m * 7036874417766400)) (e + -46) loc_Exact);
    try contradiction; reflexivity.
Qed.

(** The percentage of two counts exists and is finite unless the hit count
    dwarfs the found count. *)
Lemma percentage_finite (hit found : Z) :
  found <> 0 -> Z.abs hit <= Z.abs found * 2 ^ 1000 ->
  exists x, percentage hit found = Ok x /\ is_finite x = true.
Proof.
  intros Hf Hle. unfold percentage.
  destruct (truediv_finite hit found 1000 Hf ltac:(lia) Hle) as (q & -> & Hq).
  simpl. eexists. split; [reflexivity|].
  now apply (times_100_finite q 1000).
Qed.

Lemma report_file_ends (fc : dict file_data) (p : string) :
  In p (keys fc) ->
  (forall d, dict_lookup fc p = Some d -> lines_found d > 0 ->
             Z.abs (lines_hit d) <= lines_found d * 2 ^ 1000) ->
  uncaught (report_file fc p) = None.
Proof.
  intros Hin Hb. unfold uncaught, report_file, getitem, lift.
  destruct (dict_lookup fc p) as [d|] eqn:Hd.
  - simpl. destruct (lines_found d >? 0) eqn:Hpos; [|reflexivity].
    apply Z.gtb_lt in Hpos.
    destruct (percentage_finite (lines_hit d) (lines_found d)) as (x & -> & _).
    + lia.
    + rewrite (Z.abs_eq (lines_found d)) by lia. apply (Hb d eq_refl). lia.
    + reflexivity.
  - exfalso. now apply (dict_lookup_None fc p Hd).
Qed.

Lemma listing_ends (fc : dict file_data) (ks : list string) :
  incl ks (keys fc) ->
  (forall p d, dict_lookup fc p = Some d -> lines_found d > 0 ->
               Z.abs (lines_hit d) <= lines_found d * 2 ^ 1000) ->
  uncaught (for_each ks (report_file fc)) = None.
Proof.
  intros Hincl Hb. induction ks as [|k ks IH]; [reflexivity|].
  unfold uncaught in *. cbn [for_each]. rewrite snd_bind.
  pose proof (report_file_ends fc k (Hincl k (or_introl eq_refl)) (Hb k)) as Hk.
  unfold uncaught in Hk.
  destruct (snd (report_file fc k)) as [[]|e]; [|discriminate Hk].
  apply IH. intros q Hq. apply Hincl. now right.
Qed.

Lemma report_raises_nothing (fc : dict file_data) :
  (forall p d, dict_lookup fc p = Some d -> lines_found d > 0 ->
               Z.abs (lines_hit d) <= lines_found d * 2 ^ 1000) ->
  Z.abs (total_lines_hit fc) <= Z.abs (total_lines_found fc) * 2 ^ 1000 ->
  uncaught (report fc) = None /\ exit_status (report fc) = 0.
Proof.
  intros Hb Ht.
  assert (H : uncaught (report fc) = None).
  { pose proof (listing_ends fc (sorted (keys fc))
                  ltac:(intros q Hq; now apply sorted_In) Hb) as Hloop.
    revert Hloop. unfold report, uncaught.
    destruct (for_each (sorted (keys fc)) (report_file fc)) as [out [[]|e]];
      simpl; [intros _|discriminate].
    destruct (total_lines_found fc >? 0) eqn:Hpos; [|reflexivity].
    apply Z.gtb_lt in Hpos.
    destruct (percentage_finite (total_lines_hit fc) (total_lines_found fc))
      as (x & -> & _); [lia | exact Ht | reflexivity]. }
  split; [exact H|]. unfold exit_status. now rewrite H.
Qed.

(** X7: the report ends normally, with exit status 0, whenever the counts
    it formats are within the interpreter's limit on int conversions and no
    hit count dwarfs its found count: it is enough that [|lines_hit| <=
    lines_found * 2^1000] for every file with a positive [lines_found], and
    likewise for the totals when the total found count is positive.  Then no
    division overflows. *)
Theorem report_ends_normally (fc : dict file_data) :
  within_digit_limit fc = true ->
  (forall p d, dict_lookup fc p = Some d -> lines_found d > 0 ->
               Z.abs (lines_hit d) <= lines_found d * 2 ^ 1000) ->
  (total_lines_found fc > 0 ->
   Z.abs (total_lines_hit fc) <= total_lines_found fc * 2 ^ 1000) ->
  uncaught (report fc) = None /\ exit_status (report fc) = 0.
Proof.
  intros _ Hb Ht.
  assert (H : uncaught (report fc) = None).
  { pose proof (listing_ends fc (sorted (keys fc))
                  ltac:(intros q Hq; now apply sorted_In) Hb) as Hloop.
    revert Hloop. unfold report, uncaught.
    destruct (for_each (sorted (keys fc)) (report_file fc)) as [out [[]|e]];
      simpl; [intros _|discriminate].
    destruct (total_lines_found fc >? 0) eqn:Hpos; [|reflexivity].
    apply Z.gtb_lt in Hpos.
    destruct (percentage_finite (total_lines_hit fc) (total_lines_found fc))
      as (x & -> & _); [lia | | reflexivity].
    rewrite (Z.abs_eq (total_lines_found fc)) by lia. apply Ht. lia. }
  split; [exact H|]. unfold exit_status. now rewrite H.
Qed.

Lemma report_ends_normally_witness :
  uncaught (report [("a.py", {| lines_found := 3; lines_hit := 5 |});
                    ("b.py", {| lines_found := 0; lines_hit := 9 |})]) = None
  /\ exit_status (report [("a.py", {| lines_found := 3; lines_hit := 5 |});
                          ("b.py", {| lines_found := 0; lines_hit := 9 |})]) = 0.
Proof.
  apply (report_ends_normally
           [("a.py", {| lines_found := 3; lines_hit := 5 |});
            ("b.py", {| lines_found := 0; lines_hit := 9 |})]).
  - vm_compute. reflexivity.
  - intros p d Hd Hpos.
    assert (Hall : Forall (fun e => Z.abs (lines_hit (snd e)) <= 9)
                     [("a.py", {| lines_found := 3; lines_hit := 5 |});
                      ("b.py", {| lines_found := 0; lines_hit := 9 |})])
      by (repeat constructor; simpl; lia).
    pose proof (Forall_lookup (fun d => Z.abs (lines_hit d) <= 9) _ p d Hall Hd)
      as H. cbv beta in H.
    assert (Hbig : 9 <= 2 ^ 1000) by (vm_compute; discriminate).
    revert Hbig. generalize (2 ^ 1000). intros big Hbig. nia.
  - vm_compute. discriminate.
Defined.

(** X8: an input with no [LF:] and no [LH:] record, in which every [DA:]
    line with two fields or more has an integer as second field and comes
    after an [SF:] line, is always reported to the end: the run raises
    nothing and exits with status 0. *)
Theorem DA_only_run_ends_normally (fs : filesystem) (name text : string) :
  fs name = Text text ->
  Forall no_summary (readlines text) ->
  acceptable false (readlines text) = true ->
  uncaught (analyze_lcov_file fs name) = None
  /\ exit_status (analyze_lcov_file fs name) = 0.
Proof.
  intros Hfs Hlines Hacc.
  apply (parse_lines_acceptable (readlines text) initial_state consistent_initial)
    in Hacc.
  destruct Hacc as (st & Hok).
  rewrite (analyze_parse_ok fs name text st Hfs Hok).
  assert (Hall : Forall (fun e => in_range (snd e)) (files_coverage st)).
  { apply (parse_lines_in_range (readlines text) initial_state st Hlines);
      [constructor | exact Hok]. }
  pose proof (totals_in_range _ Hall) as Htot.
  apply report_raises_nothing.
  - intros p d Hd Hpos.
    pose proof (Forall_lookup in_range _ p d Hall Hd) as Hr.
    unfold in_range in Hr. rewrite Z.abs_eq by lia.
    assert (Hbig : 1 <= 2 ^ 1000) by (vm_compute; discriminate).
    revert Hbig. generalize (2 ^ 1000). intros big Hbig. nia.
  - rewrite !Z.abs_eq by lia.
    assert (Hbig : 1 <= 2 ^ 1000) by (vm_compute; discriminate).
    revert Hbig. generalize (2 ^ 1000). intros big Hbig. nia.
Qed.

Lemma DA_only_run_ends_normally_witness :
  uncaught (analyze_lcov_file
              (only_file (unlines ["SF:a.py"; "DA:1,1"; "DA:2,0"; "end_of_record"]))
              "coverage/lcov.info") = None
  /\ exit_status (analyze_lcov_file
                    (only_file (unlines ["SF:a.py"; "DA:1,1"; "DA:2,0"; "end_of_record"]))
                    "coverage/lcov.info") = 0.
Proof.
  apply (DA_only_run_ends_normally
           (only_file (unlines ["SF:a.py"; "DA:1,1"; "DA:2,0"; "end_of_record"]))
           "coverage/lcov.info"
           (unlines ["SF:a.py"; "DA:1,1"; "DA:2,0"; "end_of_record"])).
  - reflexivity.
  - repeat constructor; discriminate.
  - reflexivity.
Defined.

(** ** The report does not depend on the order of insertion *)

Lemma sorted_unique (l1 : list string) :
  forall l2,
    StronglySorted le_str l1 -> StronglySorted le_str l2 ->
    Permutation l1 l2 -> l1 = l2.
Proof.
  induction l1 as [|x l1 IH]; intros l2 H1 H2 Hp.
  - now apply Permutation_nil in Hp.
  - destruct l2 as [|y l2]; [now apply Permutation_sym, Permutation_nil in Hp|].
    inversion H1 as [|? ? H1' Hx]; subst. inversion H2 as [|? ? H2' Hy]; subst.
    assert (x = y).
    { assert (Hxin : In x (y :: l2))
        by (apply (Permutation_in x Hp); now left).
      assert (Hyin : In y (x :: l1))
        by (apply (Permutation_in y (Permutation_sym Hp)); now left).
      destruct Hxin as [->|Hxin]; [reflexivity|].
      destruct Hyin as [->|Hyin]; [reflexivity|].
      rewrite Forall_forall in Hx, Hy.
      apply String.leb_antisym; [now apply Hx | now apply Hy]. }
    subst y. f_equal. apply IH; auto.
    now apply Permutation_cons_inv with x.
Qed.

Lemma sorted_of_permutation (l1 l2 : list string) :
  Permutation l1 l2 -> sorted l1 = sorted l2.
Proof.
  intros Hp. apply sorted_unique; try apply sorted_sorted.
  rewrite (sorted_perm l1), Hp. symmetry. apply sorted_perm.
Qed.

Lemma dict_lookup_permutation {V : Type} (d1 d2 : dict V) (p : string) :
  NoDup (keys d1) -> Permutation d1 d2 -> dict_lookup d1 p = dict_lookup d2 p.
Proof.
  intros Hnd Hp. induction Hp as [|[k v] l l' Hp IH|[k v] [k' v'] l|l l' l'' Hp1 IH1 Hp2 IH2].
  - reflexivity.
  - simpl. inversion Hnd; subst. now rewrite IH.
  - simpl. inversion Hnd as [|? ? Hnotin _]; subst.
    destruct (String.eqb_spec k' p) as [->|]; [|reflexivity].
    destruct (String.eqb_spec k p) as [->|]; [|reflexivity].
    exfalso. apply Hnotin. now left.
  - rewrite IH1 by exact Hnd. apply IH2.
    apply (Permutation_NoDup (l := keys l)); [|exact Hnd].
    unfold keys. now apply Permutation_map.
Qed.

Lemma sum_permutation (l1 l2 : list Z) : Permutation l1 l2 -> sum l1 = sum l2.
Proof.
  induction 1 as [|x l l' Hp IH|x y l|l l' l'' Hp1 IH1 Hp2 IH2].
  - reflexivity.
  - now rewrite !sum_cons, IH.
  - rewrite !sum_cons. lia.
  - congruence.
Qed.

Lemma report_file_same (fc1 fc2 : dict file_data) (p : string) :
  dict_lookup fc1 p = dict_lookup fc2 p -> report_file fc1 p = report_file fc2 p.
Proof. intros H. unfold report_file, getitem. now rewrite H. Qed.

Lemma for_each_ext {A : Type} (l : list A) (f g : A -> io unit) :
  (forall x, In x l -> f x = g x) -> for_each l f = for_each l g.
Proof.
  induction l as [|x l IH]; intros H; [reflexivity|].
  simpl. rewrite (H x (or_introl eq_refl)), IH; [reflexivity|].
  intros y Hy. apply H. now right.
Qed.

(** X9: the report is a function of the set of entries, not of the order in
    which the files were met: two dictionaries holding the same entries in
    different orders print exactly the same lines and end the same way. *)
Theorem report_order_independent (fc1 fc2 : dict file_data) :
  NoDup (keys fc1) -> Permutation fc1 fc2 -> report fc1 = report fc2.
Proof.
  intros Hnd Hp. unfold report.
  assert (Hfound : total_lines_found fc1 = total_lines_found fc2).
  { unfold total_lines_found, values.
    apply sum_permutation. now do 2 apply Permutation_map. }
  assert (Hhit : total_lines_hit fc1 = total_lines_hit fc2).
  { unfold total_lines_hit, values.
    apply sum_permutation. now do 2 apply Permutation_map. }
  assert (Hkeys : sorted (keys fc1) = sorted (keys fc2)).
  { apply sorted_of_permutation. unfold keys. now apply Permutation_map. }
  rewrite Hfound, Hhit, Hkeys.
  rewrite (for_each_ext (sorted (keys fc2)) (report_file fc1) (report_file fc2));
    [reflexivity|].
  intros p _. apply report_file_same. now apply dict_lookup_permutation.
Qed.

Lemma report_order_independent_witness :
  report [("b.py", {| lines_found := 5; lines_hit := 5 |});
          ("a.py", {| lines_found := 3; lines_hit := 2 |})]
  = report [("a.py", {| lines_found := 3; lines_hit := 2 |});
            ("b.py", {| lines_found := 5; lines_hit := 5 |})].
Proof.
  apply report_order_independent.
  - repeat constructor; simpl; intuition discriminate.
  - apply perm_swap.
Defined.

(** ** How much a normal run prints *)

Lemma filter_length_permutation {A : Type} (f : A -> bool) (l l' : list A) :
  Permutation l l' ->
  List.length (filter f l) = List.length (filter f l').
Proof.
  induction 1 as [|x l l' Hp IH|x y l|l l' l'' Hp1 IH1 Hp2 IH2]; simpl.
  - reflexivity.
  - destruct (f x); simpl; now rewrite IH.
  - destruct (f x), (f y); reflexivity.
  - congruence.
Qed.

Lemma last_two {A : Type} (l : list A) (x y d : A) :
  last (l ++ [x; y]) d = y.
Proof.
  replace (l ++ [x; y])%list with ((l ++ [x]) ++ [y])%list
    by (now rewrite <- app_assoc).
  apply last_last.
Qed.

Lemma listing_length (fc : dict file_data) (ks : list string) :
  uncaught (for_each ks (report_file fc)) = None ->
  List.length (stdout (for_each ks (report_file fc)))
  = (2 * List.length (filter (listed fc) ks))%nat.
Proof.
  induction ks as [|k ks IH]; [reflexivity|].
  unfold uncaught in *. cbn [for_each filter]. rewrite stdout_bind, snd_bind.
  rewrite length_app.
  destruct (report_file_cases fc k) as [(e & E)|[(E & Hle)|(d & c & Hd & Hpos & _ & E)]];
    rewrite E; cbn [stdout fst snd]; [discriminate| |].
  - intros Hok. rewrite (IH Hok).
    assert (Hl : listed fc k = false).
    { unfold listed. destruct (dict_lookup fc k) as [d|]; [|reflexivity].
      specialize (Hle d eq_refl). rewrite Z.gtb_ltb. apply Z.ltb_ge. lia. }
    rewrite Hl. reflexivity.
  - intros Hok. rewrite (IH Hok).
    assert (Hl : listed fc k = true).
    { unfold listed. rewrite Hd. rewrite Z.gtb_ltb. apply Z.ltb_lt. lia. }
    rewrite Hl. simpl. lia.
Qed.

(** X10: a run that ends normally prints four lines (title, two separators,
    closing line) and two lines for each path whose [lines_found] is
    positive, and nothing else; the closing line is the total line when the
    total of lines found is positive, and [No coverage data found]
    otherwise. *)
Theorem normal_report_size (fc : dict file_data) :
  uncaught (report fc) = None ->
  List.length (stdout (report fc))
  = (4 + 2 * List.length (filter (listed fc) (keys fc)))%nat
  /\ (total_lines_found fc > 0 ->
      exists c,
        percentage (total_lines_hit fc) (total_lines_found fc) = Ok c
        /\ last (stdout (report fc)) ""
           = total_line (total_lines_hit fc) (total_lines_found fc) c)
  /\ (total_lines_found fc <= 0 ->
      last (stdout (report fc)) "" = "No coverage data found").
Proof.
  intros Hok.
  destruct (report_shape fc) as (tail & Hout & Hloop & Htail).
  pose proof (listing_length fc (sorted (keys fc)) (Hloop Hok)) as Hlen.
  rewrite (filter_length_permutation (listed fc) _ _ (sorted_perm (keys fc)))
    in Hlen.
  rewrite Hout.
  destruct Htail as [[_ H]|[(_ & _ & H)|[(-> & Hle & _)|(c & -> & Hpos & Hc & _)]]];
    try (now elim H; auto).
  - split; [|split].
    + cbn [List.length]. rewrite length_app, Hlen. simpl. lia.
    + intros Hpos. lia.
    + intros _. apply (last_two (title :: separator :: _)).
  - split; [|split].
    + cbn [List.length]. rewrite length_app, Hlen. simpl. lia.
    + intros _. exists c. split; [exact Hc|].
      apply (last_two (title :: separator :: _)).
    + intros Hle. lia.
Qed.

Lemma normal_report_size_witness :
  List.length
    (stdout (report [("b.py", {| lines_found := 5; lines_hit := 5 |});
                     ("c.py", {| lines_found := 0; lines_hit := 0 |});
                     ("a.py", {| lines_found := 3; lines_hit := 2 |})]))
  = (4 + 2 * 2)%nat.
Proof.
  apply (proj1 (normal_report_size
                  [("b.py", {| lines_found := 5; lines_hit := 5 |});
                   ("c.py", {| lines_found := 0; lines_hit := 0 |});
                   ("a.py", {| lines_found := 3; lines_hit := 2 |})] eq_refl)).
Defined.

(** ** A path that is opened again *)

(** X11: what an [SF:] line and the lines up to the next [SF:] line leave in
    the entry of the path does not depend on what was there before: a path
    opened a second time starts again from zero, and its earlier counts are
    lost, not merged.  Whether the block is read without an exception does
    not depend on the earlier lines either. *)
Theorem reopened_path_starts_over (st0 : parser_state) (sf : string)
    (block : list string) :
  classify sf = RecSF ->
  Forall (fun l => classify l <> RecSF) block ->
  ((exists st', parse_lines st0 (sf :: block) = Ok st')
   <-> acceptable true block = true)
  /\ (forall st',
        parse_lines st0 (sf :: block) = Ok st' ->
        current_file st' = Some (payload sf)
        /\ dict_lookup (files_coverage st') (payload sf)
           = Some (block_after block {| lines_found := 0; lines_hit := 0 |})).
Proof.
  intros K Hblock. cbn [parse_lines].
  rewrite (process_line_SF st0 sf K). cbn [bind].
  set (st1 := {| files_coverage :=
                   setitem (files_coverage st0) (payload sf)
                           {| lines_found := 0; lines_hit := 0 |};
                 current_file := Some (payload sf) |}).
  assert (Hst1 : consistent st1).
  { unfold consistent, st1. simpl. now rewrite dict_lookup_setitem_same. }
  split.
  - exact (parse_lines_acceptable block st1 Hst1).
  - intros st' Hok.
    apply (parse_block block st1 st' (payload sf) _ eq_refl
             (dict_lookup_setitem_same _ _ _) Hblock Hok).
Qed.

Lemma reopened_path_starts_over_witness :
  ((exists st',
       parse_lines
         {| files_coverage := [("a.py", {| lines_found := 40; lines_hit := 30 |})];
            current_file := Some "a.py" |}
         ("SF:a.py" :: ["DA:1,1"; "DA:2,0"]) = Ok st')
   <-> acceptable true ["DA:1,1"; "DA:2,0"] = true)
  /\ (forall st',
        parse_lines
          {| files_coverage := [("a.py", {| lines_found := 40; lines_hit := 30 |})];
             current_file := Some "a.py" |}
          ("SF:a.py" :: ["DA:1,1"; "DA:2,0"]) = Ok st' ->
        current_file st' = Some (payload "SF:a.py")
        /\ dict_lookup (files_coverage st') (payload "SF:a.py")
           = Some (block_after ["DA:1,1"; "DA:2,0"]
                     {| lines_found := 0; lines_hit := 0 |})).
Proof.
  apply (reopened_path_starts_over
           {| files_coverage := [("a.py", {| lines_found := 40; lines_hit := 30 |})];
              current_file := Some "a.py" |}
           "SF:a.py" ["DA:1,1"; "DA:2,0"]).
  - reflexivity.
  - repeat constructor; discriminate.
Defined.

(** ** Line endings *)

Lemma str_app_assoc (a b c : string) : (a ++ b) ++ c = a ++ b ++ c.
Proof. induction a as [|x a IH]; simpl; [reflexivity | now rewrite IH]. Qed.

Lemma str_app_nil (a : string) : a ++ "" = a.
Proof. induction a as [|x a IH]; simpl; [reflexivity | now rewrite IH]. Qed.

Lemma readlines_from_LF (l : string) :
  forall cur rest,
    one_line l = true ->
    readlines_from cur (l ++ String NL rest)
    = (cur ++ ended l) :: readlines_from "" rest.
Proof.
  induction l as [|c l IH]; intros cur rest Hl.
  - reflexivity.
  - simpl in Hl. apply andb_prop in Hl. destruct Hl as [Hc Hl].
    apply andb_prop in Hc. destruct Hc as [Hnl Hcr].
    apply negb_true_iff in Hnl, Hcr.
    cbn [append readlines_from]. rewrite Hnl, Hcr.
    rewrite (IH _ rest Hl). f_equal.
    now rewrite str_app_assoc.
Qed.

Lemma readlines_from_CRLF (l : string) :
  forall cur rest,
    one_line l = true ->
    readlines_from cur (l ++ String CR (String NL rest))
    = (cur ++ ended l) :: readlines_from "" rest.
Proof.
  induction l as [|c l IH]; intros cur rest Hl.
  - reflexivity.
  - simpl in Hl. apply andb_prop in Hl. destruct Hl as [Hc Hl].
    apply andb_prop in Hc. destruct Hc as [Hnl Hcr].
    apply negb_true_iff in Hnl, Hcr.
    cbn [append readlines_from]. rewrite Hnl, Hcr.
    rewrite (IH _ rest Hl). f_equal.
    now rewrite str_app_assoc.
Qed.

Lemma unlines_cons (l : string) (ls : list string) :
  unlines (l :: ls) = l ++ String NL (unlines ls).
Proof.
  unfold unlines, ended. destruct ls as [|l' ls]; [reflexivity|].
  cbn [map String.concat]. now rewrite str_app_assoc.
Qed.

Lemma unlines_crlf_cons (l : string) (ls : list string) :
  unlines_crlf (l :: ls) = l ++ String CR (String NL (unlines_crlf ls)).
Proof.
  unfold unlines_crlf. destruct ls as [|l' ls]; [reflexivity|].
  cbn [map String.concat]. now rewrite str_app_assoc.
Qed.

Lemma readlines_unlines (ls : list string) :
  Forall (fun l => one_line l = true) ls ->
  readlines (unlines ls) = map ended ls
  /\ readlines (unlines_crlf ls) = map ended ls.
Proof.
  unfold readlines. induction 1 as [|l ls Hl Hls [IH1 IH2]]; [split; reflexivity|].
  rewrite unlines_cons, unlines_crlf_cons.
  rewrite (readlines_from_LF l "" _ Hl), (readlines_from_CRLF l "" _ Hl).
  cbn [map append]. now rewrite IH1, IH2.
Qed.

Lemma rstrip_space_end (s : string) (c : ascii) :
  isspace c = true -> rstrip (s ++ String c "") = rstrip s.
Proof.
  intros Hc. induction s as [|x s IH]; simpl.
  - now rewrite Hc.
  - now rewrite IH.
Qed.

Lemma lstrip_space_end (s : string) (c : ascii) :
  isspace c = true ->
  lstrip (s ++ String c "") = lstrip s ++ String c ""
  \/ (lstrip s = "" /\ lstrip (s ++ String c "") = "").
Proof.
  intros Hc. induction s as [|x s IH]; simpl.
  - right. now rewrite Hc.
  - destruct (isspace x); [exact IH | now left].
Qed.

Lemma strip_ended (l : string) : strip (ended l) = strip l.
Proof.
  unfold strip, ended.
  destruct (lstrip_space_end l NL eq_refl) as [->|[-> ->]]; [|reflexivity].
  now apply rstrip_space_end.
Qed.

Lemma process_line_strip (st : parser_state) (a b : string) :
  strip a = strip b -> process_line st a = process_line st b.
Proof. intros H. unfold process_line. now rewrite H. Qed.

Lemma parse_lines_ended (ls : list string) :
  forall st, parse_lines st (map ended ls) = parse_lines st ls.
Proof.
  induction ls as [|l ls IH]; intros st; [reflexivity|].
  cbn [map parse_lines].
  rewrite (process_line_strip st (ended l) l (strip_ended l)).
  destruct (process_line st l); simpl; [apply IH | reflexivity].
Qed.

(** X12: line endings do not matter.  For a text made of lines that each
    end with a newline, or each with a carriage return and a newline, the
    run is the loop over the bare lines followed by the report. *)
Theorem line_endings_do_not_matter (fs : filesystem) (name : string)
    (ls : list string) :
  Forall (fun l => one_line l = true) ls ->
  fs name = Text (unlines ls) \/ fs name = Text (unlines_crlf ls) ->
  analyze_lcov_file fs name
  = (st <~ lift (parse_lines initial_state ls) ;; report (files_coverage st)).
Proof.
  intros Hls Hfs. destruct (readlines_unlines ls Hls) as [H1 H2].
  unfold analyze_lcov_file, open.
  destruct Hfs as [-> | ->]; cbn [lift io_bind app];
    rewrite ?H1, ?H2, parse_lines_ended;
    destruct (parse_lines initial_state ls) as [st|e]; cbn [lift io_bind app];
    try reflexivity;
    now destruct (report (files_coverage st)).
Qed.

Lemma line_endings_do_not_matter_witness :
  analyze_lcov_file
    (fun _ => Text (unlines_crlf ["SF:a.py"; "DA:1,1"])) "coverage/lcov.info"
  = (st <~ lift (parse_lines initial_state ["SF:a.py"; "DA:1,1"]) ;;
     report (files_coverage st)).
Proof.
  apply (line_endings_do_not_matter
           (fun _ => Text (unlines_crlf ["SF:a.py"; "DA:1,1"]))
           "coverage/lcov.info" ["SF:a.py"; "DA:1,1"]).
  - repeat constructor.
  - right. reflexivity.
Defined.

(** ** Totals and the listing *)

Lemma totals_of_listed (fc : dict file_data) :
  Forall (fun e => in_range (snd e)) fc ->
  total_lines_found fc
  = total_lines_found (filter (fun e => lines_found (snd e) >? 0) fc)
  /\ total_lines_hit fc
     = total_lines_hit (filter (fun e => lines_found (snd e) >? 0) fc).
Proof.
  rewrite !total_lines_found_all, !total_lines_hit_all.
  induction 1 as [|e fc He Hfc [IH1 IH2]]; [split; reflexivity|].
  cbn [filter fold_right]. unfold in_range in He.
  destruct (lines_found (snd e) >? 0) eqn:Hpos; cbn [fold_right].
  - split; congruence.
  - rewrite Z.gtb_ltb in Hpos. apply Z.ltb_ge in Hpos. split; lia.
Qed.

(** X13: when the input has no [LF:] and no [LH:] record, the files left
    out of the listing add nothing to the totals: the totals are the sums
    over the files whose [lines_found] is positive, which are the files the
    report lists. *)
Theorem totals_are_those_of_listed_files (lines : list string)
    (st : parser_state) :
  Forall no_summary lines ->
  parse_lines initial_state lines = Ok st ->
  total_lines_found (files_coverage st)
  = total_lines_found
      (filter (fun e => lines_found (snd e) >? 0) (files_coverage st))
  /\ total_lines_hit (files_coverage st)
     = total_lines_hit
         (filter (fun e => lines_found (snd e) >? 0) (files_coverage st)).
Proof.
  intros Hlines Hok. apply totals_of_listed.
  apply (parse_lines_in_range lines initial_state st Hlines); [constructor | exact Hok].
Qed.

Lemma totals_are_those_of_listed_files_witness :
  total_lines_found [("a.py", {| lines_found := 2; lines_hit := 1 |});
                     ("b.py", {| lines_found := 0; lines_hit := 0 |})]
  = total_lines_found
      (filter (fun e => lines_found (snd e) >? 0)
         [("a.py", {| lines_found := 2; lines_hit := 1 |});
          ("b.py", {| lines_found := 0; lines_hit := 0 |})])
  /\ total_lines_hit [("a.py", {| lines_found := 2; lines_hit := 1 |});
                      ("b.py", {| lines_found := 0; lines_hit := 0 |})]
     = total_lines_hit
         (filter (fun e => lines_found (snd e) >? 0)
            [("a.py", {| lines_found := 2; lines_hit := 1 |});
             ("b.py", {| lines_found := 0; lines_hit := 0 |})]).
Proof.
  apply (totals_are_those_of_listed_files
           ["SF:a.py"; "DA:1,1"; "DA:2,0"; "SF:b.py"; "DA:9"]
           {| files_coverage := [("a.py", {| lines_found := 2; lines_hit := 1 |});
                                 ("b.py", {| lines_found := 0; lines_hit := 0 |})];
              current_file := Some "b.py" |}).
  - repeat constructor; discriminate.
  - reflexivity.
Defined.

(** ** Percentages of counts in range *)

Lemma loc_of_shr_record_of_loc (m : Z) (l : location) :
  loc_of_shr_record (shr_record_of_loc m l) = l.
Proof. destruct l as [|[]]; reflexivity. Qed.

Lemma shr_1_exact (mrs : shr_record) (k : Z) :
  0 <= k -> shr_m mrs = 2 * k -> loc_of_shr_record mrs = loc_Exact ->
  loc_of_shr_record (shr_1 mrs) = loc_Exact.
Proof.
  intros Hk Hm Hl. destruct mrs as [m r s]. cbn [shr_m] in Hm.
  destruct r, s; try discriminate Hl.
  destruct m as [|[p|p|]|p]; try reflexivity; lia.
Qed.

Lemma iter_shr_1_exact (n : positive) :
  forall mrs k,
    0 <= k -> shr_m mrs = k * 2 ^ Zpos n ->
    loc_of_shr_record mrs = loc_Exact ->
    loc_of_shr_record (iter_pos shr_1 n mrs) = loc_Exact.
Proof.
  induction n as [n IH|n IH|]; intros mrs k Hk Hm Hl; cbn [iter_pos].
  - assert (Hp : 0 < 2 ^ Zpos n) by (apply Z.pow_pos_nonneg; lia).
    assert (Hm' : shr_m mrs = 2 * (k * 2 ^ Z.pos n * 2 ^ Z.pos n)).
    { rewrite Hm. replace (Z.pos n~1) with (1 + Z.pos n + Z.pos n) by lia.
      rewrite !Z.pow_add_r, Z.pow_1_r by lia. lia. }
    assert (Hk2 : 0 <= k * 2 ^ Z.pos n * 2 ^ Z.pos n) by nia.
    pose proof (shr_1_exact mrs _ Hk2 Hm' Hl) as H1.
    assert (Hs1 : shr_m (shr_1 mrs) = k * 2 ^ Z.pos n * 2 ^ Z.pos n).
    { rewrite shr_1_m by nia. rewrite Hm'.
      now rewrite Z.mul_comm, Z.div_mul by lia. }
    pose proof (IH (shr_1 mrs) (k * 2 ^ Z.pos n) ltac:(nia) Hs1 H1) as H2.
    apply (IH _ k Hk); [|exact H2].
    rewrite iter_shr_1_m by nia. rewrite Hs1. now rewrite Z.div_mul by lia.
  - assert (Hp : 0 < 2 ^ Zpos n) by (apply Z.pow_pos_nonneg; lia).
    assert (Hm' : shr_m mrs = k * 2 ^ Z.pos n * 2 ^ Z.pos n).
    { rewrite Hm. replace (Z.pos n~0) with (Z.pos n + Z.pos n) by lia.
      rewrite Z.pow_add_r by lia. lia. }
    pose proof (IH mrs (k * 2 ^ Z.pos n) ltac:(nia) Hm' Hl) as H2.
    apply (IH _ k Hk); [|exact H2].
    rewrite iter_shr_1_m by nia. rewrite Hm'. now rewrite Z.div_mul by lia.
  - apply (shr_1_exact mrs k Hk); [|exact Hl].
    rewrite Hm, Z.pow_1_r. lia.
Qed.

(** One step of the rounding keeps the value at or below a bound that is a
    multiple of the new unit, and at or above such a bound. *)
Lemma shr_fexp_between (m e : Z) (l : location) (lo hi g : Z) :
  0 <= m -> 0 <= hi ->
  snd (shr_fexp prec emax m e l) <= g ->
  lo * 2 ^ (g - e) <= m ->
  upper m l <= hi * 2 ^ (g - e) ->
  e <= snd (shr_fexp prec emax m e l)
  /\ lo * 2 ^ (g - snd (shr_fexp prec emax m e l))
     <= shr_m (fst (shr_fexp prec emax m e l))
  /\ upper (shr_m (fst (shr_fexp prec emax m e l)))
           (loc_of_shr_record (fst (shr_fexp prec emax m e l)))
     <= hi * 2 ^ (g - snd (shr_fexp prec emax m e l)).
Proof.
  intros Hm Hhi. unfold shr_fexp, shr.
  destruct (fexp prec emax (Zdigits2 m + e) - e) as [|n|n] eqn:Hn;
    cbn [fst snd]; rewrite ?shr_record_of_loc_m, ?loc_of_shr_record_of_loc;
    try (intros; repeat split; (lia || assumption)).
  intros Hg Hlo Hup.
  rewrite iter_shr_1_m by (rewrite shr_record_of_loc_m; lia).
  rewrite shr_record_of_loc_m.
  assert (Hp : 0 < 2 ^ Z.pos n) by (apply Z.pow_pos_nonneg; lia).
  assert (Hsplit : forall c, c * 2 ^ (g - e)
                             = c * 2 ^ (g - (e + Z.pos n)) * 2 ^ Z.pos n).
  { intros c. rewrite <- Z.mul_assoc, <- Z.pow_add_r by lia.
    now replace (g - (e + Z.pos n) + Z.pos n) with (g - e) by lia. }
  rewrite Hsplit in Hlo, Hup.
  split; [lia|]. split.
  - apply Z.div_le_lower_bound; lia.
  - set (W := hi * 2 ^ (g - (e + Z.pos n))) in *.
    assert (Hmle : m <= W * 2 ^ Z.pos n) by (destruct l; simpl in Hup; lia).
    destruct (Z.eq_dec m (W * 2 ^ Z.pos n)) as [Heq|Hne].
    + assert (Hl : l = loc_Exact).
      { destruct l; [reflexivity|]. simpl in Hup. lia. }
      subst l.
      rewrite (iter_shr_1_exact n _ W).
      * simpl. rewrite Heq, Z.div_mul by lia. lia.
      * unfold W. pose proof (Z.pow_nonneg 2 (g - (e + Z.pos n)) ltac:(lia)). nia.
      * simpl. exact Heq.
      * reflexivity.
    + assert (m / 2 ^ Z.pos n < W)
        by (apply Z.div_lt_upper_bound; lia).
      destruct (loc_of_shr_record _); simpl; lia.
Qed.

Lemma round_nearest_even_upper (m : Z) (l : location) :
  round_nearest_even m l <= upper m l.
Proof.
  unfold round_nearest_even, upper.
  destruct l as [|[]]; try lia. destruct (Z.even m); lia.
Qed.

Lemma upper_above (m : Z) (l : location) : m <= upper m l.
Proof. destruct l; simpl; lia. Qed.

(** The rounding keeps a value between two bounds that are multiples of
    every unit it goes through. *)
Lemma binary_round_aux_between (sx : bool) (mx ex : Z) (lx : location)
    (lo hi g B E : Z) :
  0 <= mx -> 0 <= hi ->
  Zdigits2 mx + ex <= B -> ex <= E -> B <= 1023 -> E <= 971 ->
  Z.max E (Z.max (B - 52) (-1074)) <= g ->
  lo * 2 ^ (g - ex) <= mx ->
  upper mx lx <= hi * 2 ^ (g - ex) ->
  match binary_round_aux prec emax sx mx ex lx with
  | S754_zero s => s = sx /\ lo <= 0
  | S754_finite s m e =>
      s = sx /\ e <= g /\ lo * 2 ^ (g - e) <= Zpos m <= hi * 2 ^ (g - e)
  | S754_infinity _ | S754_nan => False
  end.
Proof.
  intros Hm Hhi HB HE HB' HE' Hg Hlo Hup. unfold binary_round_aux.
  pose proof (shr_fexp_bounds mx ex B E lx Hm HB HE) as (H0 & HD & He).
  pose proof (shr_fexp_between mx ex lx lo hi g Hm Hhi ltac:(lia) Hlo Hup)
    as (Hee & Hlo1 & Hup1).
  destruct (shr_fexp prec emax mx ex lx) as [mrs1 e1]. cbn [fst snd] in *.
  pose proof (round_nearest_even_bounds (shr_m mrs1) (loc_of_shr_record mrs1))
    as Hr.
  pose proof (round_nearest_even_upper (shr_m mrs1) (loc_of_shr_record mrs1))
    as Hru.
  set (m1 := round_nearest_even (shr_m mrs1) (loc_of_shr_record mrs1)) in *.
  assert (Hd1 : Zdigits2 m1 <= Zdigits2 (shr_m mrs1) + 1).
  { etransitivity; [apply (Zdigits2_mono m1 (shr_m mrs1 + 1)); lia|].
    now apply Zdigits2_succ. }
  pose proof (shr_fexp_bounds m1 e1 (Z.max B (-1074) + 1)
                (Z.max E (Z.max (B - 53) (-1074))) loc_Exact
                ltac:(lia) ltac:(lia) ltac:(lia)) as (H0' & HD' & He').
  pose proof (shr_fexp_between m1 e1 loc_Exact lo hi g ltac:(lia) Hhi
                ltac:(lia) ltac:(lia) ltac:(simpl; lia))
    as (Hee' & Hlo2 & Hup2).
  destruct (shr_fexp prec emax m1 e1 loc_Exact) as [mrs2 e2]. cbn [fst snd] in *.
  pose proof (upper_above (shr_m mrs2) (loc_of_shr_record mrs2)) as Hab.
  assert (Hpow : 0 < 2 ^ (g - e2)) by (apply Z.pow_pos_nonneg; lia).
  destruct (shr_m mrs2) as [|m|m]; [split; [reflexivity | nia]| |lia].
  change (emax - prec) with 971.
  destruct (Z.leb_spec e2 971); [|lia].
  repeat split; lia.
Qed.

Lemma new_location_zero (b : Z) : new_location b 0 = loc_Exact.
Proof.
  unfold new_location, new_location_even, new_location_odd.
  now destruct (Z.even b).
Qed.

Lemma SFdiv_core_between (a b : positive) (lo : Z) :
  Zpos a <= Zpos b ->
  lo = 0 \/ (lo = 1 /\ a = b) ->
  0 <= fst (fst (SFdiv_core_binary prec emax (Zpos a) 0 (Zpos b) 0))
  /\ Zdigits2 (fst (fst (SFdiv_core_binary prec emax (Zpos a) 0 (Zpos b) 0)))
     + snd (fst (SFdiv_core_binary prec emax (Zpos a) 0 (Zpos b) 0)) <= 1
  /\ snd (fst (SFdiv_core_binary prec emax (Zpos a) 0 (Zpos b) 0)) <= 0
  /\ lo * 2 ^ (0 - snd (fst (SFdiv_core_binary prec emax (Zpos a) 0 (Zpos b) 0)))
     <= fst (fst (SFdiv_core_binary prec emax (Zpos a) 0 (Zpos b) 0))
  /\ upper (fst (fst (SFdiv_core_binary prec emax (Zpos a) 0 (Zpos b) 0)))
           (snd (SFdiv_core_binary prec emax (Zpos a) 0 (Zpos b) 0))
     <= 1 * 2 ^ (0 - snd (fst (SFdiv_core_binary prec emax (Zpos a) 0 (Zpos b) 0))).
Proof.
  intros Hab Hlo.
  pose proof (SFdiv_core_bounds a b 0 ltac:(lia) ltac:(simpl; lia))
    as (Hq0 & HD & He).
  split; [exact Hq0|]. split; [exact HD|]. split; [exact He|].
  revert Hq0 HD He. unfold SFdiv_core_binary.
  set (e' := Z.min (fexp prec emax (Zdigits2 (Z.pos a) + 0 - (Zdigits2 (Z.pos b) + 0)))
                   (0 - 0)).
  assert (He' : e' <= 0) by (unfold e'; lia).
  set (m' := match 0 - 0 - e' with
             | 0 => Z.pos a
             | Z.pos _ => Z.shiftl (Z.pos a) (0 - 0 - e')
             | Z.neg _ => 0
             end).
  assert (Hm' : m' = Zpos a * 2 ^ (- e')).
  { unfold m'. replace (0 - 0 - e') with (- e') by lia.
    destruct (- e') as [|s|s] eqn:Hs; [simpl; lia| |lia].
    now rewrite Z.shiftl_mul_pow2 by lia. }
  pose proof (Z.pow_pos_nonneg 2 (- e') ltac:(lia) ltac:(lia)) as Hpow.
  assert (Hq : Z.div_eucl m' (Z.pos b) = (m' / Z.pos b, m' mod Z.pos b)).
  { unfold Z.div, Z.modulo. now destruct (Z.div_eucl m' (Z.pos b)). }
  rewrite Hq. cbn [fst snd]. intros Hq0 HD _.
  replace (0 - e') with (- e') by lia.
  destruct (Z.eq_dec (Z.pos a) (Z.pos b)) as [Heq|Hne].
  - assert (Hdiv : m' / Z.pos b = 2 ^ (- e')).
    { rewrite Hm', Heq, (Z.mul_comm (Z.pos b)). apply Z.div_mul. lia. }
    assert (Hmod : m' mod Z.pos b = 0).
    { rewrite Hm', Heq, (Z.mul_comm (Z.pos b)). apply Z.mod_mul. lia. }
    rewrite Hdiv, Hmod, new_location_zero. unfold upper.
    destruct Hlo as [->|[-> _]]; lia.
  - assert (Hlt : m' / Z.pos b < 2 ^ (- e')).
    { apply Z.div_lt_upper_bound; [lia|]. rewrite Hm'. nia. }
    split.
    + destruct Hlo as [->|[_ ->]]; [lia | congruence].
    + destruct (new_location (Z.pos b) (m' mod Z.pos b)); unfold upper; lia.
Qed.

Lemma truediv_between (a b lo : Z) :
  0 <= a <= b -> 0 < b ->
  lo = 0 \/ (lo = 1 /\ a = b) ->
  exists x, truediv a b = Ok x /\ between lo 1 0 x
            /\ (a = 0 -> x = S754_zero false).
Proof.
  intros Hab Hb Hlo. unfold truediv.
  destruct (Z.eqb_spec b 0) as [|_]; [lia|].
  destruct b as [|b|b]; try lia.
  destruct a as [|a|a]; try lia; cbn [exact].
  - eexists. split; [reflexivity|]. split; [|reflexivity].
    simpl. split; [reflexivity|]. lia.
  - assert (Hlo' : lo = 0 \/ (lo = 1 /\ a = b))
      by (destruct Hlo as [->|[-> H]]; [now left | right; split; congruence]).
    pose proof (SFdiv_core_between a b lo ltac:(lia) Hlo')
      as (Hq0 & HD & He & Hlow & Hup).
    unfold SFdiv.
    destruct (SFdiv_core_binary prec emax (Z.pos a) 0 (Z.pos b) 0) as [[q e] l].
    cbn [fst snd] in *.
    pose proof (binary_round_aux_between (xorb false false) q e l lo 1 0 1 0
                  Hq0 ltac:(lia) HD He ltac:(lia) ltac:(lia) ltac:(lia)
                  Hlow Hup) as H.
    destruct (binary_round_aux prec emax (xorb false false) q e l);
      try contradiction.
    + eexists. split; [reflexivity|]. split; [exact H | discriminate].
    + eexists. split; [reflexivity|]. split; [exact H | discriminate].
Qed.

Lemma times_100_between (x : float) (lo : Z) :
  0 <= lo <= 1 ->
  between lo 1 0 x ->
  between (25 * lo) 25 2 (fmul x (float_of_int 100)).
Proof.
  intros Hlo Hx.
  change (float_of_int 100) with (S754_finite false 7036874417766400 (-46)).
  destruct x as [s| | |s m e]; try contradiction.
  - destruct Hx as [-> Hle]. unfold fmul, SFmul, between. cbn [xorb].
    split; [reflexivity | lia].
  - destruct Hx as (-> & He & Hlow & Hup). unfold fmul, SFmul.
    assert (Hp : 0 < 2 ^ (0 - e)) by (apply Z.pow_pos_nonneg; lia).
    assert (Hsplit : forall c, c * 2 ^ (2 - (e + -46))
                               = c * 281474976710656 * 2 ^ (0 - e)).
    { intros c. replace (2 - (e + -46)) with (48 + (0 - e)) by lia.
      rewrite Z.pow_add_r by lia.
      change (2 ^ 48) with 281474976710656. lia. }
    assert (Hd : Zdigits2 (Z.pos (m * 7036874417766400)) + (e + -46) <= 7).
    { assert (Zdigits2 (Z.pos (m * 7036874417766400)) <= 53 + (0 - e)); [|lia].
      apply Zdigits2_le; try lia.
      rewrite Z.pow_add_r by lia.
      change (2 ^ 53) with 9007199254740992. rewrite Pos2Z.inj_mul. nia. }
    assert (Hlow' : 25 * lo * 2 ^ (2 - (e + -46))
                    <= Z.pos (m * 7036874417766400))
      by (rewrite Hsplit, Pos2Z.inj_mul; nia).
    assert (Hup' : upper (Z.pos (m * 7036874417766400)) loc_Exact
                   <= 25 * 2 ^ (2 - (e + -46)))
      by (unfold upper; rewrite Hsplit, Pos2Z.inj_mul; nia).
    pose proof (binary_round_aux_between (xorb false false)
                  (Z.pos (m * 7036874417766400)) (e + -46) loc_Exact
                  (25 * lo) 25 2 7 (-46)
                  ltac:(lia) ltac:(lia) Hd ltac:(lia) ltac:(lia) ltac:(lia)
                  ltac:(lia) Hlow' Hup') as H.
    destruct (binary_round_aux prec emax (xorb false false)
                (Z.pos (m * 7036874417766400)) (e + -46) loc_Exact);
      try contradiction; exact H.
Qed.

Lemma round_half_even_cap (num den k : Z) :
  0 <= num -> 0 < den -> num <= k * den ->
  round_half_even num den <= k
  /\ (num = k * den -> round_half_even num den = k).
Proof.
  intros Hnum Hden Hle. unfold round_half_even.
  pose proof (Z.div_mod num den ltac:(lia)) as Hdm.
  pose proof (Z.mod_pos_bound num den Hden) as Hr.
  destruct (Z.eq_dec num (k * den)) as [Heq|Hne].
  - assert (Hq : num / den = k) by (rewrite Heq; apply Z.div_mul; lia).
    assert (Hm : num mod den = 0) by (rewrite Heq; apply Z.mod_mul; lia).
    rewrite Hq, Hm.
    destruct (Z.compare_spec (2 * 0) den); try lia.
  - assert (Hq : num / den < k) by (apply Z.div_lt_upper_bound; lia).
    split; [|contradiction].
    destruct (2 * (num mod den) ?= den); [destruct (Z.even (num / den))| |]; lia.
Qed.

Lemma format_1f_between (x : float) (lo : Z) :
  lo = 0 \/ lo = 25 ->
  between lo 25 2 x ->
  exists t,
    0 <= t <= 1000
    /\ format_1f x = str (t / 10) ++ "." ++ str (t mod 10)
    /\ (lo = 25 -> t = 1000)
    /\ (x = S754_zero false -> t = 0).
Proof.
  intros Hlo Hx. destruct x as [s| | |s m e]; try contradiction.
  - destruct Hx as [-> Hle]. exists 0. repeat split; lia.
  - destruct Hx as (-> & He & Hlow & Hup).
    exists (tenths m e).
    pose proof (tenths_nonneg m e) as Ht.
    assert (Hcap : tenths m e <= 1000 /\ (lo = 25 -> tenths m e = 1000)).
    { unfold tenths. destruct (0 <=? e) eqn:Hpos.
      - apply Z.leb_le in Hpos.
        assert (He3 : e = 0 \/ e = 1 \/ e = 2) by lia.
        destruct He3 as [->|[->| ->]];
          cbn [Z.sub Z.opp Z.add Z.pos_sub Pos.pred_double] in Hlow, Hup;
          change (2 ^ 2) with 4 in *; change (2 ^ 1) with 2 in *;
          change (2 ^ 0) with 1 in *; lia.
      - apply Z.leb_gt in Hpos.
        assert (Hp : 0 < 2 ^ (- e)) by (apply Z.pow_pos_nonneg; lia).
        assert (Hsplit : 2 ^ (2 - e) = 4 * 2 ^ (- e)).
        { replace (2 - e) with (2 + - e) by lia.
          now rewrite Z.pow_add_r by lia. }
        rewrite Hsplit in Hlow, Hup.
        destruct (round_half_even_cap (Z.pos m * 10) (2 ^ (- e)) 1000
                    ltac:(lia) Hp ltac:(lia)) as [H1 H2].
        split; [exact H1|]. intros ->. apply H2. lia. }
    destruct Hcap as [Hc1 Hc2].
    repeat split; try lia; try assumption. discriminate.
Qed.

(** X14: for counts with [0 <= hit <= found] and [found > 0], the percentage
    is computed without an exception and is printed as a value between
    [0.0] and [100.0]: the digits are those of an integer number of tenths
    between 0 and 1000.  With [hit = found] it is printed as [100.0], and
    with [hit = 0] as [0.0]. *)
Theorem percentage_in_range (hit found : Z) :
  0 <= hit <= found -> 0 < found ->
  exists x t,
    percentage hit found = Ok x
    /\ 0 <= t <= 1000
    /\ format_1f x = str (t / 10) ++ "." ++ str (t mod 10)
    /\ (hit = found -> t = 1000)
    /\ (hit = 0 -> t = 0).
Proof.
  intros Hr Hf.
  destruct (Z.eq_dec hit found) as [Heq|Hne].
  - destruct (truediv_between hit found 1 Hr Hf ltac:(right; split; [reflexivity|exact Heq]))
      as (q & Hq & Hb & _).
    pose proof (times_100_between q 1 ltac:(lia) Hb) as Hb100.
    destruct (format_1f_between _ 25 ltac:(now right) Hb100)
      as (t & Ht & Hfmt & H1000 & _).
    exists (fmul q (float_of_int 100)), t.
    unfold percentage. rewrite Hq. simpl.
    repeat split; try lia; auto.
  - destruct (truediv_between hit found 0 Hr Hf ltac:(now left))
      as (q & Hq & Hb & Hzero).
    pose proof (times_100_between q 0 ltac:(lia) Hb) as Hb100.
    destruct (format_1f_between _ 0 ltac:(now left) Hb100)
      as (t & Ht & Hfmt & _ & H0).
    exists (fmul q (float_of_int 100)), t.
    unfold percentage. rewrite Hq. simpl.
    repeat split; try lia; auto.
    intros Hhit. apply H0. now rewrite (Hzero Hhit).
Qed.

Lemma percentage_in_range_witness :
  exists x t,
    percentage 2 3 = Ok x
    /\ 0 <= t <= 1000
    /\ format_1f x = str (t / 10) ++ "." ++ str (t mod 10)
    /\ (2 = 3 -> t = 1000)
    /\ (2 = 0 -> t = 0).
Proof. apply (percentage_in_range 2 3); lia. Defined.

(** ** Which files the report lists *)

Lemma report_file_entry (fc : dict file_data) (p : string) (d : file_data) :
  dict_lookup fc p = Some d ->
  (listed fc p = false /\ report_file fc p = ([], Ok tt))
  \/ (listed fc p = true /\ lines_found d > 0
      /\ exists c, percentage (lines_hit d) (lines_found d) = Ok c
                   /\ report_file fc p = ([p; lines_line d c], Ok tt))
  \/ (listed fc p = true /\ lines_found d > 0
      /\ exists e, percentage (lines_hit d) (lines_found d) = Raise e
                   /\ report_file fc p = ([], Raise e)).
Proof.
  intros Hd. unfold listed, report_file, getitem, lift. rewrite Hd. simpl.
  destruct (lines_found d >? 0) eqn:Hpos; [|left; auto].
  apply Z.gtb_lt in Hpos.
  destruct (percentage (lines_hit d) (lines_found d)) as [c|e]; simpl.
  - right; left. repeat split; try lia. eauto.
  - right; right. repeat split; try lia. eauto.
Qed.

Lemma listing_prefix (fc : dict file_data) (ks : list string) :
  incl ks (keys fc) ->
  exists blocks,
    stdout (for_each ks (report_file fc)) = flat_map block_lines blocks
    /\ Forall (fun b => exists d c,
                   dict_lookup fc (fst b) = Some d
                   /\ lines_found d > 0
                   /\ percentage (lines_hit d) (lines_found d) = Ok c
                   /\ snd b = lines_line d c) blocks
    /\ ((uncaught (for_each ks (report_file fc)) = None
         /\ map fst blocks = filter (listed fc) ks)
        \/ (exists e p d later,
               uncaught (for_each ks (report_file fc)) = Some e
               /\ filter (listed fc) ks = (map fst blocks ++ p :: later)%list
               /\ dict_lookup fc p = Some d
               /\ lines_found d > 0
               /\ percentage (lines_hit d) (lines_found d) = Raise e)).
Proof.
  induction ks as [|k ks IH]; intros Hincl.
  - exists []. split; [reflexivity|]. split; [constructor|].
    left. split; reflexivity.
  - destruct IH as (blocks & Hout & Hall & Hcases).
    { intros q Hq. apply Hincl. now right. }
    destruct (dict_lookup fc k) as [d|] eqn:Hd.
    2:{ exfalso. apply (dict_lookup_None fc k Hd). apply Hincl. now left. }
    unfold uncaught in *. cbn [for_each filter]. rewrite stdout_bind, snd_bind.
    destruct (report_file_entry fc k d Hd)
      as [(Hl & E)|[(Hl & Hpos & c & Hc & E)|(Hl & Hpos & e & Hc & E)]];
      rewrite E, Hl; cbn [stdout fst snd app].
    + exists blocks. repeat split; auto.
    + exists ((k, lines_line d c) :: blocks). split; [|split].
      * cbn [flat_map block_lines fst snd app]. now rewrite Hout.
      * constructor; [|exact Hall]. exists d, c. auto.
      * cbn [map fst].
        destruct Hcases as [(Hok & Hb)|(e & p & d' & later & He & Hb & Hrest)].
        -- left. split; [exact Hok | now rewrite Hb].
        -- right. exists e, p, d', later. split; [exact He|].
           split; [now rewrite Hb | exact Hrest].
    + exists []. split; [reflexivity|]. split; [constructor|].
      right. exists e, k, d, (filter (listed fc) ks). auto.
Qed.

Lemma prefix_NoDup {A : Type} (l1 l2 : list A) :
  NoDup (l1 ++ l2) -> NoDup l1.
Proof.
  induction l1 as [|x l1 IH]; simpl; intros H; [constructor|].
  inversion H as [|? ? Hx Hrest]; subst. constructor.
  - intros Hin. apply Hx. apply in_or_app. now left.
  - now apply IH.
Qed.

(** X15: what the report prints is fixed by the dictionary.  For unique
    keys, and counts within the interpreter's limit on int conversions, the
    output is the title, a separator, one block of two lines for each of the
    first paths of the sorted keys with a positive [lines_found], and a
    tail.  No path heads two blocks, and every heading path has a positive
    [lines_found].  When the run ends normally the blocks are those of all
    such paths, in order, and the tail is the second separator with the
    total line or with [No coverage data found]; when a division in the
    listing overflows the blocks stop before that file and nothing follows;
    when the division of the totals overflows all blocks and the second
    separator are out, and nothing follows. *)
Theorem listing_is_exact (fc : dict file_data) :
  NoDup (keys fc) ->
  within_digit_limit fc = true ->
  exists blocks tail,
    stdout (report fc)
    = (title :: separator :: flat_map block_lines blocks ++ tail)%list
    /\ NoDup (map fst blocks)
    /\ (forall p, In p (map fst blocks) -> listed fc p = true)
    /\ Forall (fun b => exists d c,
                   dict_lookup fc (fst b) = Some d
                   /\ lines_found d > 0
                   /\ percentage (lines_hit d) (lines_found d) = Ok c
                   /\ snd b = lines_line d c) blocks
    /\ (uncaught (report fc) = None ->
        forall p, listed fc p = true -> In p (map fst blocks))
    /\ ((uncaught (report fc) = None
         /\ map fst blocks = filter (listed fc) (sorted (keys fc))
         /\ ((total_lines_found fc <= 0
              /\ tail = [separator; "No coverage data found"])
             \/ (exists c,
                    total_lines_found fc > 0
                    /\ percentage (total_lines_hit fc) (total_lines_found fc)
                       = Ok c
                    /\ tail = [separator;
                               total_line (total_lines_hit fc)
                                 (total_lines_found fc) c])))
        \/ (exists e p d later,
               uncaught (report fc) = Some e
               /\ filter (listed fc) (sorted (keys fc))
                  = (map fst blocks ++ p :: later)%list
               /\ dict_lookup fc p = Some d
               /\ lines_found d > 0
               /\ percentage (lines_hit d) (lines_found d) = Raise e
               /\ tail = [])
        \/ (exists e,
               uncaught (report fc) = Some e
               /\ map fst blocks = filter (listed fc) (sorted (keys fc))
               /\ total_lines_found fc > 0
               /\ percentage (total_lines_hit fc) (total_lines_found fc)
                  = Raise e
               /\ tail = [separator])).
Proof.
  intros Hnd _.
  assert (Hnd' : NoDup (filter (listed fc) (sorted (keys fc)))).
  { apply NoDup_filter.
    apply (Permutation_NoDup (l := keys fc)); [|exact Hnd].
    symmetry. apply sorted_perm. }
  destruct (listing_prefix fc (sorted (keys fc)))
    as (blocks & Hout & Hall & Hcases).
  { intros q Hq. now apply sorted_In. }
  assert (Hpre : exists later,
             filter (listed fc) (sorted (keys fc))
             = (map fst blocks ++ later)%list).
  { destruct Hcases as [(_ & Hb)|(e & p & d & later & _ & Hb & _)].
    - exists []. now rewrite app_nil_r.
    - eauto. }
  destruct Hpre as (later & Hpre).
  assert (Hnb : NoDup (map fst blocks)).
  { apply (prefix_NoDup _ later). now rewrite <- Hpre. }
  assert (Hlisted : forall p, In p (map fst blocks) -> listed fc p = true).
  { intros p Hin.
    assert (Hf : In p (filter (listed fc) (sorted (keys fc))))
      by (rewrite Hpre; apply in_or_app; now left).
    now apply filter_In in Hf. }
  assert (Hall_in : map fst blocks = filter (listed fc) (sorted (keys fc)) ->
                    forall p, listed fc p = true -> In p (map fst blocks)).
  { intros Hb p Hl. rewrite Hb. apply filter_In. split; [|exact Hl].
    apply sorted_In. unfold listed in Hl.
    destruct (dict_lookup fc p) as [d|] eqn:Hd; [|discriminate Hl].
    now apply (dict_lookup_In fc p d). }
  revert Hout Hcases. unfold report, uncaught, stdout.
  destruct (for_each (sorted (keys fc)) (report_file fc)) as [out [[]|e]];
    cbn [fst snd]; intros Hout Hcases.
  - destruct Hcases as [(_ & Hb)|(e & p & d & later' & He & _)];
      [|discriminate He].
    destruct (total_lines_found fc >? 0) eqn:Hpos.
    + apply Z.gtb_lt in Hpos.
      destruct (percentage (total_lines_hit fc) (total_lines_found fc))
        as [c|e] eqn:Hc.
      * exists blocks. eexists. rewrite <- Hout.
        split; [reflexivity|]. split; [exact Hnb|]. split; [exact Hlisted|].
        split; [exact Hall|]. split; [intros _; now apply Hall_in|].
        left. split; [reflexivity|]. split; [exact Hb|].
        right. exists c. repeat split; auto. lia.
      * exists blocks, [separator]. rewrite <- Hout.
        split; [reflexivity|]. split; [exact Hnb|]. split; [exact Hlisted|].
        split; [exact Hall|]. split; [intros H; discriminate H|].
        right; right. exists e. repeat split; auto. lia.
    + rewrite Z.gtb_ltb in Hpos. apply Z.ltb_ge in Hpos.
      exists blocks. eexists. rewrite <- Hout.
      split; [reflexivity|]. split; [exact Hnb|]. split; [exact Hlisted|].
      split; [exact Hall|]. split; [intros _; now apply Hall_in|].
      left. split; [reflexivity|]. split; [exact Hb|].
      left. split; [lia | reflexivity].
  - destruct Hcases as [(Hok & _)|(e' & p & d & later' & He & Hb & Hd & Hpos & Hc)];
      [discriminate Hok|].
    injection He as <-.
    exists blocks, []. rewrite <- Hout.
    split; [cbn; now rewrite app_nil_r|].
    split; [exact Hnb|]. split; [exact Hlisted|].
    split; [exact Hall|]. split; [intros H; discriminate H|].
    right; left. exists e, p, d, later'. repeat split; auto.
Qed.

Lemma listing_is_exact_witness :
  exists blocks tail,
    stdout (report [("b.py", {| lines_found := 5; lines_hit := 5 |});
                    ("c.py", {| lines_found := 0; lines_hit := 0 |});
                    ("a.py", {| lines_found := 4; lines_hit := 1 |})])
    = (title :: separator :: flat_map block_lines blocks ++ tail)%list
    /\ map fst blocks = ["a.py"; "b.py"]
    /\ tail = [separator; "Total Coverage: 6/9 lines (66.7%)"].
Proof.
  destruct (listing_is_exact
              [("b.py", {| lines_found := 5; lines_hit := 5 |});
               ("c.py", {| lines_found := 0; lines_hit := 0 |});
               ("a.py", {| lines_found := 4; lines_hit := 1 |})])
    as (blocks & tail & Hout & _ & _ & _ & _ & Hcases).
  - repeat constructor; simpl; intuition discriminate.
  - vm_compute. reflexivity.
  - exists blocks, tail. split; [exact Hout|].
    destruct Hcases as [(_ & Hb & Ht)|[(e & p & d & later & He & _)|(e & He & _)]];
      [|discriminate He|discriminate He].
    split; [exact Hb|].
    destruct Ht as [(Hle & _)|(c & _ & Hc & Ht)]; [vm_compute in Hle; now elim Hle|].
    vm_compute in Hc. injection Hc as <-. exact Ht.
Defined.
